(** * ExtHostChatSessions: the extension-host side of the chat-session RPC bridge

    Shallow embedding of [src/vs/workbench/api/common/extHostChatSessions.ts].

    The class keeps four maps and three counters.  Everything else it does is
    a call into a collaborator (the main-thread proxy, the log service, the
    disposable / cancellation framework, the extension's provider objects).
    The embedding therefore is a state-and-writer monad: the state is the
    record of the class's fields, and what is written is the sequence of
    outward calls, each tagged with the field values at the moment of the
    call.  An [async] method is cut at its [await]s: the part before the first
    [await] is one function, every continuation is another one that runs on
    whatever the fields are when the awaited promise settles.  An outward call
    is taken to return without calling back into the instance before it
    does. *)

From Stdlib Require Import Ascii.
From stdpp Require Import base gmap strings list pretty.

(** ** Values that cross the boundary *)

(** JavaScript objects are compared by reference.  [Ref] names an object that
    was handed in from outside (a provider, a callback, an icon, a language
    model); [ObjId] names an object created by a [new] expression executed
    inside this class. *)
Definition Ref := nat.
Definition ObjId := nat.

(** A cancellation token is either one the caller passed in or the [token]
    property of a [CancellationTokenSource] created here. *)
Inductive CancellationToken :=
| CallerToken (r : Ref)
| SourceToken (cts : ObjId).

Record IExtensionDescription := { identifier : string }.

(** [vscode.ChatSessionItem], as far as this file reads it. *)
Record ChatSessionItem := {
  item_id : string;
  item_label : string;
  item_iconPath : option Ref;
}.

(** [IChatSessionItem], the DTO pushed to [response]. *)
Record IChatSessionItem := {
  dto_id : string;
  dto_label : string;
  dto_iconPath : option Ref;
}.

(** [vscode.ChatSessionItemProvider]: the optional change event and the
    identity of the object whose [provideChatSessionItems] is called. *)
Record ChatSessionItemProvider := {
  itemProvider_ref : Ref;
  onDidChangeChatSessionItems : option Ref;
}.

Record ChatSessionContentProvider := { contentProvider_ref : Ref }.

(** Values of the two provider maps: [{ provider, extension, disposable }]. *)
Record ItemProviderEntry := {
  ipe_provider : ChatSessionItemProvider;
  ipe_extension : IExtensionDescription;
  ipe_disposable : ObjId;
}.

Record ContentProviderEntry := {
  cpe_provider : ChatSessionContentProvider;
  cpe_extension : IExtensionDescription;
  cpe_disposable : ObjId;
}.

Inductive ChatAgentLocation := Panel | OtherLocation (name : string).

Record IChatAgentRequest := {
  req_sessionId : string;
  req_requestId : string;
  req_agentId : string;
  req_message : string;
  req_variables : list Ref;
  req_location : ChatAgentLocation;
  req_userSelectedModelId : option string;
}.

(** [IChatAgentResult]: the only value this file ever returns is [{}]. *)
Inductive IChatAgentResult := EmptyResult.

(** The object literal with [$handleProgressChunk] and [$handleAnchorResolve]
    built at lines 171-177 closes over [handle] and [id] and nothing else. *)
Definition ProgressProxy : Type := Z * string.

(** A promise, once settled. *)
Inductive Settled (A : Type) :=
| Fulfilled (a : A)
| Rejected (err : string).
Arguments Fulfilled {A} a.
Arguments Rejected {A} err.

(** How a call of a method ends. *)
Inductive Outcome (R : Type) :=
| Returned (r : R)
| Threw (msg : string).
Arguments Returned {R} r.
Arguments Threw {R} msg.

(** An [async] method either completes before any [await] or suspends,
    keeping the local variables its continuation needs. *)
Inductive Step (R P : Type) :=
| Done (o : Outcome R)
| Await (p : P).
Arguments Done {R P} o.
Arguments Await {R P} p.

(** ** JavaScript coercions *)

Module Js.

(** [`${n}`] and [n + ''] for a number holding an integer: the handles and the
    session pool are counters that start at 0 and are only ever incremented,
    so they are modelled as integers and print in decimal.  (A JavaScript
    number counts exactly up to 2^53 and prints in plain decimal below 10^21;
    the model does not follow a counter beyond that.) *)
Definition numberToString (n : Z) : string := pretty n.

(** Truthiness of a string: only the empty string is falsy. *)
Definition truthy (s : string) : bool :=
  match s with
  | EmptyString => false
  | String _ _ => true
  end.

(** Truthiness of an optional string ([undefined] is falsy too). *)
Definition truthy_opt (s : option string) : bool :=
  match s with
  | Some s => truthy s
  | None => false
  end.

End Js.

(** ** Outward calls *)

Inductive Event :=
(* ILogService *)
| LogError (msg : string)
| LogWarn (msg : string)
(* MainThreadChatSessionsShape, through [this._proxy] *)
| Proxy_registerChatSessionItemProvider (handle : Z) (chatSessionType : string)
| Proxy_unregisterChatSessionItemProvider (handle : Z)
| Proxy_onDidChangeChatSessionItems (chatSessionType : string)
| Proxy_registerChatSessionContentProvider (handle : Z) (chatSessionType : string)
| Proxy_unregisterChatSessionContentProvider (handle : Z)
| Proxy_showChatSession (chatSessionType sessionId : string) (viewColumn : option Z)
| Proxy_handleProgressComplete (handle : Z) (id requestId : string)
(* lifecycle.js and cancellation.js *)
| NewDisposableStore (o : ObjId)
| NewCancellationTokenSource (o : ObjId)
| StoreAdd (store o : ObjId)
| StoreDispose (store : ObjId)
| CtsCancel (cts : ObjId)
(* extHostChatAgents2.js *)
| NewChatAgentResponseStream (o : ObjId) (extension : IExtensionDescription)
    (request : IChatAgentRequest) (proxy : ProgressProxy) (store : ObjId)
(* the extension's objects *)
| Subscribe_onDidChangeChatSessionItems (event : Ref) (chatSessionType : string) (subscription : ObjId)
| Call_provideChatSessionItems (provider : ChatSessionItemProvider) (token : CancellationToken)
| Call_provideChatSessionContent (provider : ChatSessionContentProvider) (id : string)
    (token : CancellationToken)
| Call_activeResponseCallback (callback : Ref) (stream : ObjId) (token : CancellationToken)
| Call_requestHandler (handler : Ref) (request : IChatAgentRequest) (model : Ref)
    (extension : IExtensionDescription) (history : list Ref) (stream : ObjId)
    (token : CancellationToken)
(* ExtHostLanguageModels *)
| Call_getLanguageModelByIdentifier (extension : IExtensionDescription) (modelId : string)
| Call_getDefaultLanguageModel (extension : IExtensionDescription).

(** A conversion of response parts for the examples at the end: parts are
    strings, and the empty string converts to [undefined]. *)
Definition demo_part_from (part : string) (_ : ObjId) : option string :=
  if Js.truthy part then Some part else None.

Definition demo_viewColumn_from (viewColumn : option Z) : option Z := viewColumn.

(** ** The class and its fields *)

Section ExtHost.

(** [vscode.ChatResponsePart] values and their DTOs are produced and consumed
    by code outside this file; [ChatResponsePart_from] stands for
    [typeConvert.ChatResponsePart.from(r, this.commands.converter,
    sessionDisposables)], whose last argument is the session's store, and
    [ViewColumn_from] for [typeConvert.ViewColumn.from]. *)
Variables (Part PartDto : Type).
Variable ChatResponsePart_from : Part → ObjId → option PartDto.
Variable ViewColumn_from : option Z → option Z.

(** A history turn: [turn instanceof extHostTypes.ChatRequestTurn] holds of the
    first constructor only; anything else is read as a [ChatResponseTurn2]. *)
Inductive ChatTurn :=
| ChatRequestTurn (prompt : string)
| ChatResponseTurn2 (response : list Part).

(** [vscode.ChatSession]. *)
Record ChatSession := {
  history : list ChatTurn;
  activeResponseCallback : option Ref;
  requestHandler : option Ref;
}.

(** One element of [ChatSessionDto.history]. *)
Inductive HistoryDto :=
| RequestDto (prompt : string)
| ResponseDto (parts : list PartDto).

Record ChatSessionDto := {
  csd_id : string;
  hasActiveResponseCallback : bool;
  hasRequestHandler : bool;
  csd_history : list HistoryDto;
}.

(** [class ExtHostChatSession] (lines 25-46).  [stream] is the private
    [_stream] created by the constructor. *)
Record ExtHostChatSession := {
  session : ChatSession;
  extension : IExtensionDescription;
  proxy : ProgressProxy;
  sessionDisposables : ObjId;
  stream : ObjId;
}.

(** Values of [_extHostChatSessions]. *)
Record SessionEntry := {
  sessionObj : ExtHostChatSession;
  disposeCts : ObjId;
}.

(** The fields of [ExtHostChatSessions], the static [_sessionHandlePool], and
    the allocator that gives every [new] object its identity. *)
Record State := mkState {
  _chatSessionItemProviders : gmap Z ItemProviderEntry;
  _chatSessionContentProviders : gmap Z ContentProviderEntry;
  _nextChatSessionItemProviderHandle : Z;
  _nextChatSessionContentProviderHandle : Z;
  _sessionMap : gmap string ChatSessionItem;
  _sessionHandlePool : Z;
  _extHostChatSessions : gmap string SessionEntry;
  heapNext : ObjId;
}.

(** The state right after the constructor has run. *)
Definition initial : State :=
  {| _chatSessionItemProviders := ∅;
     _chatSessionContentProviders := ∅;
     _nextChatSessionItemProviderHandle := 0;
     _nextChatSessionContentProviderHandle := 0;
     _sessionMap := ∅;
     _sessionHandlePool := 0;
     _extHostChatSessions := ∅;
     heapNext := 0 |}.

(** An outward call together with the fields as they were when it was made. *)
Record Observed := observe { event : Event; fields : State }.

(** ** The monad *)

Definition M (A : Type) : Type := State → A * State * list Observed.

Definition ret {A} (a : A) : M A := λ st, (a, st, []).

Definition bind {A B} (m : M A) (k : A → M B) : M B := λ st,
  let '(a, st1, ev1) := m st in
  let '(b, st2, ev2) := k a st1 in
  (b, st2, ev1 ++ ev2).

Notation "'let*' x ':=' m 'in' k" := (bind m (λ x, k))
  (at level 10, x name, m at level 100, k at level 200).
Notation "m '>>' k" := (bind m (λ _, k))
  (at level 90, k at level 200, right associativity).

Definition gets {A} (f : State → A) : M A := λ st, (f st, st, []).
Definition modify (f : State → State) : M unit := λ st, (tt, f st, []).
Definition emit (e : Event) : M unit := λ st, (tt, st, [observe e st]).

Definition result {A} (r : A * State * list Observed) : A := r.1.1.
Definition final {A} (r : A * State * list Observed) : State := r.1.2.
Definition calls {A} (r : A * State * list Observed) : list Event := event <$> r.2.

(** Field updates: [with_f g st] is [st] with field [f] replaced by [g] of its
    old value. *)
Definition with_chatSessionItemProviders (g : gmap Z ItemProviderEntry → gmap Z ItemProviderEntry) (st : State) : State :=
  {| _chatSessionItemProviders := g (_chatSessionItemProviders st);
     _chatSessionContentProviders := _chatSessionContentProviders st;
     _nextChatSessionItemProviderHandle := _nextChatSessionItemProviderHandle st;
     _nextChatSessionContentProviderHandle := _nextChatSessionContentProviderHandle st;
     _sessionMap := _sessionMap st;
     _sessionHandlePool := _sessionHandlePool st;
     _extHostChatSessions := _extHostChatSessions st;
     heapNext := heapNext st |}.

Definition with_chatSessionContentProviders (g : gmap Z ContentProviderEntry → gmap Z ContentProviderEntry) (st : State) : State :=
  {| _chatSessionItemProviders := _chatSessionItemProviders st;
     _chatSessionContentProviders := g (_chatSessionContentProviders st);
     _nextChatSessionItemProviderHandle := _nextChatSessionItemProviderHandle st;
     _nextChatSessionContentProviderHandle := _nextChatSessionContentProviderHandle st;
     _sessionMap := _sessionMap st;
     _sessionHandlePool := _sessionHandlePool st;
     _extHostChatSessions := _extHostChatSessions st;
     heapNext := heapNext st |}.

Definition with_nextChatSessionItemProviderHandle (g : Z → Z) (st : State) : State :=
  {| _chatSessionItemProviders := _chatSessionItemProviders st;
     _chatSessionContentProviders := _chatSessionContentProviders st;
     _nextChatSessionItemProviderHandle := g (_nextChatSessionItemProviderHandle st);
     _nextChatSessionContentProviderHandle := _nextChatSessionContentProviderHandle st;
     _sessionMap := _sessionMap st;
     _sessionHandlePool := _sessionHandlePool st;
     _extHostChatSessions := _extHostChatSessions st;
     heapNext := heapNext st |}.

Definition with_nextChatSessionContentProviderHandle (g : Z → Z) (st : State) : State :=
  {| _chatSessionItemProviders := _chatSessionItemProviders st;
     _chatSessionContentProviders := _chatSessionContentProviders st;
     _nextChatSessionItemProviderHandle := _nextChatSessionItemProviderHandle st;
     _nextChatSessionContentProviderHandle := g (_nextChatSessionContentProviderHandle st);
     _sessionMap := _sessionMap st;
     _sessionHandlePool := _sessionHandlePool st;
     _extHostChatSessions := _extHostChatSessions st;
     heapNext := heapNext st |}.

Definition with_sessionMap (g : gmap string ChatSessionItem → gmap string ChatSessionItem) (st : State) : State :=
  {| _chatSessionItemProviders := _chatSessionItemProviders st;
     _chatSessionContentProviders := _chatSessionContentProviders st;
     _nextChatSessionItemProviderHandle := _nextChatSessionItemProviderHandle st;
     _nextChatSessionContentProviderHandle := _nextChatSessionContentProviderHandle st;
     _sessionMap := g (_sessionMap st);
     _sessionHandlePool := _sessionHandlePool st;
     _extHostChatSessions := _extHostChatSessions st;
     heapNext := heapNext st |}.

Definition with_sessionHandlePool (g : Z → Z) (st : State) : State :=
  {| _chatSessionItemProviders := _chatSessionItemProviders st;
     _chatSessionContentProviders := _chatSessionContentProviders st;
     _nextChatSessionItemProviderHandle := _nextChatSessionItemProviderHandle st;
     _nextChatSessionContentProviderHandle := _nextChatSessionContentProviderHandle st;
     _sessionMap := _sessionMap st;
     _sessionHandlePool := g (_sessionHandlePool st);
     _extHostChatSessions := _extHostChatSessions st;
     heapNext := heapNext st |}.

Definition with_extHostChatSessions (g : gmap string SessionEntry → gmap string SessionEntry) (st : State) : State :=
  {| _chatSessionItemProviders := _chatSessionItemProviders st;
     _chatSessionContentProviders := _chatSessionContentProviders st;
     _nextChatSessionItemProviderHandle := _nextChatSessionItemProviderHandle st;
     _nextChatSessionContentProviderHandle := _nextChatSessionContentProviderHandle st;
     _sessionMap := _sessionMap st;
     _sessionHandlePool := _sessionHandlePool st;
     _extHostChatSessions := g (_extHostChatSessions st);
     heapNext := heapNext st |}.

Definition with_heapNext (g : ObjId → ObjId) (st : State) : State :=
  {| _chatSessionItemProviders := _chatSessionItemProviders st;
     _chatSessionContentProviders := _chatSessionContentProviders st;
     _nextChatSessionItemProviderHandle := _nextChatSessionItemProviderHandle st;
     _nextChatSessionContentProviderHandle := _nextChatSessionContentProviderHandle st;
     _sessionMap := _sessionMap st;
     _sessionHandlePool := _sessionHandlePool st;
     _extHostChatSessions := _extHostChatSessions st;
     heapNext := g (heapNext st) |}.

(** ** Primitive statements *)

(** [new C(...)]: the object gets the next identity, and the constructor call
    is recorded. *)
Definition new (constructed : ObjId → Event) : M ObjId := λ st,
  let o := heapNext st in
  (o, with_heapNext S st, [observe (constructed o) st]).

(** [x++] on a counter field: yields the old value. *)
Definition postIncrement (read : State → Z) (write : (Z → Z) → State → State) : M Z :=
  let* v := gets read in
  modify (write Z.succ) >>
  ret v.

(** Modelled from the spec: [coalesce] of [base/common/arrays.js] is not under
    src/; it keeps the defined elements of an array, in order (the spec's
    "undefined conversions dropped"). *)
Fixpoint coalesce {A} (array : list (option A)) : list A :=
  match array with
  | [] => []
  | Some a :: rest => a :: coalesce rest
  | None :: rest => coalesce rest
  end.

(** The key of [_extHostChatSessions]: [`${handle}_${id}`]. *)
Definition sessionKey (handle : Z) (id : string) : string :=
  Js.numberToString handle +:+ "_" +:+ id.

(** ** class ExtHostChatSession *)

(** The constructor (lines 28-37). *)
Definition new_ExtHostChatSession (session : ChatSession) (extension : IExtensionDescription)
    (request : IChatAgentRequest) (proxy : ProgressProxy) (sessionDisposables : ObjId)
  : M ExtHostChatSession :=
  let* _stream :=
    new (λ o, NewChatAgentResponseStream o extension request proxy sessionDisposables) in
  ret {| session := session; extension := extension; proxy := proxy;
         sessionDisposables := sessionDisposables; stream := _stream |}.

Definition activeResponseStream (this : ExtHostChatSession) : ObjId := stream this.

Definition getActiveRequestStream (this : ExtHostChatSession) (request : IChatAgentRequest)
  : M ObjId :=
  new (λ o, NewChatAgentResponseStream o (extension this) request (proxy this)
              (sessionDisposables this)).

(** ** Registration (lines 85-117) *)

(** What the closure in the returned disposable keeps: [handle] and
    [disposables]. *)
Record Registration := { reg_handle : Z; reg_disposables : ObjId }.

Definition registerChatSessionItemProvider (extension : IExtensionDescription)
    (chatSessionType : string) (provider : ChatSessionItemProvider) : M Registration :=
  let* handle := postIncrement _nextChatSessionItemProviderHandle
                   with_nextChatSessionItemProviderHandle in
  let* disposables := new NewDisposableStore in
  modify (with_chatSessionItemProviders
            (insert handle {| ipe_provider := provider; ipe_extension := extension;
                              ipe_disposable := disposables |})) >>
  emit (Proxy_registerChatSessionItemProvider handle chatSessionType) >>
  (match onDidChangeChatSessionItems provider with
   | Some changed =>
       let* subscription :=
         new (Subscribe_onDidChangeChatSessionItems changed chatSessionType) in
       emit (StoreAdd disposables subscription)
   | None => ret tt
   end) >>
  ret {| reg_handle := handle; reg_disposables := disposables |}.

(** The listener passed to [provider.onDidChangeChatSessionItems] (line 93). *)
Definition onDidChangeChatSessionItems_listener (chatSessionType : string) : M unit :=
  emit (Proxy_onDidChangeChatSessionItems chatSessionType).

(** [dispose] of the object returned at lines 96-102. *)
Definition dispose_itemProviderRegistration (r : Registration) : M unit :=
  modify (with_chatSessionItemProviders (delete (reg_handle r))) >>
  emit (StoreDispose (reg_disposables r)) >>
  emit (Proxy_unregisterChatSessionItemProvider (reg_handle r)).

Definition registerChatSessionContentProvider (extension : IExtensionDescription)
    (chatSessionType : string) (provider : ChatSessionContentProvider) : M Registration :=
  let* handle := postIncrement _nextChatSessionContentProviderHandle
                   with_nextChatSessionContentProviderHandle in
  let* disposables := new NewDisposableStore in
  modify (with_chatSessionContentProviders
            (insert handle {| cpe_provider := provider; cpe_extension := extension;
                              cpe_disposable := disposables |})) >>
  emit (Proxy_registerChatSessionContentProvider handle chatSessionType) >>
  ret {| reg_handle := handle; reg_disposables := disposables |}.

(** The callback given to [extHostTypes.Disposable] at lines 112-116. *)
Definition dispose_contentProviderRegistration (r : Registration) : M unit :=
  modify (with_chatSessionContentProviders (delete (reg_handle r))) >>
  emit (StoreDispose (reg_disposables r)) >>
  emit (Proxy_unregisterChatSessionContentProvider (reg_handle r)).

(** ** The argument processor installed by the constructor (lines 67-82) *)

Inductive Argument :=
| ChatSessionContext (id : string)
| OtherArgument (r : Ref).

Inductive ProcessedArgument :=
| SessionItem (item : ChatSessionItem)
| Untouched (arg : Argument).

Definition processArgument (arg : Argument) : M ProcessedArgument :=
  match arg with
  | ChatSessionContext id =>
      let* sessionContent := gets (λ st, _sessionMap st !! id) in
      match sessionContent with
      | Some sessionContent => ret (SessionItem sessionContent)
      | None =>
          emit (LogWarn ("No chat session found for ID: " +:+ id)) >>
          ret (Untouched arg)
      end
  | OtherArgument _ => ret (Untouched arg)
  end.

(** ** showChatSession (lines 119-121) *)

Record ChatSessionShowOptions := { viewColumn : option Z }.

Definition showChatSession (_extension : IExtensionDescription) (chatSessionType sessionId : string)
    (options : option ChatSessionShowOptions) : M (Step unit unit) :=
  emit (Proxy_showChatSession chatSessionType sessionId
          (ViewColumn_from (options ≫= viewColumn))) >>
  ret (Await tt).

Definition showChatSession_resume (reply : Settled unit) : M (Outcome unit) :=
  match reply with
  | Fulfilled _ => ret (Returned tt)
  | Rejected err => ret (Threw err)
  end.

(** ** $provideChatSessionItems (lines 123-150) *)

(** Up to [await entry.provider.provideChatSessionItems(token)]. *)
Definition provideChatSessionItems (handle : Z) (token : CancellationToken)
  : M (Step (list IChatSessionItem) unit) :=
  let* entry := gets (λ st, _chatSessionItemProviders st !! handle) in
  match entry with
  | None =>
      emit (LogError ("No provider registered for handle " +:+ Js.numberToString handle)) >>
      ret (Done (Returned []))
  | Some entry =>
      emit (Call_provideChatSessionItems (ipe_provider entry) token) >>
      ret (Await tt)
  end.

(** The [for ... of] loop of lines 136-148, [response] being the array built so
    far. *)
Fixpoint provideChatSessionItems_loop (sessions : list ChatSessionItem)
    (response : list IChatSessionItem) : M (list IChatSessionItem) :=
  match sessions with
  | [] => ret response
  | sessionContent :: rest =>
      if Js.truthy (item_id sessionContent) then
        modify (with_sessionMap (insert (item_id sessionContent) sessionContent)) >>
        provideChatSessionItems_loop rest
          (response ++ [{| dto_id := item_id sessionContent;
                           dto_label := item_label sessionContent;
                           dto_iconPath := item_iconPath sessionContent |}])
      else provideChatSessionItems_loop rest response
  end.

(** From the moment the provider's promise settles. *)
Definition provideChatSessionItems_resume (reply : Settled (option (list ChatSessionItem)))
  : M (Outcome (list IChatSessionItem)) :=
  match reply with
  | Rejected err => ret (Threw err)
  | Fulfilled None => ret (Returned [])
  | Fulfilled (Some sessions) =>
      let* response := provideChatSessionItems_loop sessions [] in
      ret (Returned response)
  end.

(** ** $provideChatSessionContent (lines 154-209) *)

(** The locals alive across the [await] of line 160. *)
Record ContentPending := {
  cp_handle : Z;
  cp_id : string;
  cp_provider : ContentProviderEntry;
}.

Definition provideChatSessionContent (handle : Z) (id : string) (token : CancellationToken)
  : M (Step ChatSessionDto ContentPending) :=
  let* provider := gets (λ st, _chatSessionContentProviders st !! handle) in
  match provider with
  | None => ret (Done (Threw ("No provider for handle " +:+ Js.numberToString handle)))
  | Some provider =>
      emit (Call_provideChatSessionContent (cpe_provider provider) id token) >>
      ret (Await {| cp_handle := handle; cp_id := id; cp_provider := provider |})
  end.

(** The callback of [session.history.map] (lines 195-207). *)
Definition historyToDto (sessionDisposables : ObjId) (turn : ChatTurn) : HistoryDto :=
  match turn with
  | ChatRequestTurn prompt => RequestDto prompt
  | ChatResponseTurn2 response =>
      ResponseDto
        (coalesce (map (λ r, ChatResponsePart_from r sessionDisposables) response))
  end.

(** [!!o] for an optional object or function. *)
Definition isSome {A} (o : option A) : bool :=
  match o with Some _ => true | None => false end.

Definition provideChatSessionContent_resume (k : ContentPending) (reply : Settled ChatSession)
  : M (Outcome ChatSessionDto) :=
  match reply with
  | Rejected err => ret (Threw err)
  | Fulfilled session =>
      let handle := cp_handle k in
      let id := cp_id k in
      let* sessionDisposables := new NewDisposableStore in
      let* sessionId := postIncrement _sessionHandlePool with_sessionHandlePool in
      let* chatSession :=
        new_ExtHostChatSession session (cpe_extension (cp_provider k))
          {| req_sessionId := id +:+ "." +:+ Js.numberToString sessionId;
             req_requestId := "ongoing";
             req_agentId := id;
             req_message := "";
             req_variables := [];
             req_location := Panel;
             req_userSelectedModelId := None |}
          (handle, id) sessionDisposables in
      let* disposeCts := new NewCancellationTokenSource in
      emit (StoreAdd sessionDisposables disposeCts) >>
      modify (with_extHostChatSessions
                (insert (sessionKey handle id)
                   {| sessionObj := chatSession; disposeCts := disposeCts |})) >>
      (match activeResponseCallback session with
       | Some callback =>
           emit (Call_activeResponseCallback callback (activeResponseStream chatSession)
                   (SourceToken disposeCts))
       | None => ret tt
       end) >>
      ret (Returned
             {| csd_id := Js.numberToString sessionId;
                hasActiveResponseCallback := isSome (activeResponseCallback session);
                hasRequestHandler := isSome (requestHandler session);
                csd_history := map (historyToDto sessionDisposables) (history session) |})
  end.

(** The [finally] callback of lines 185-188, run when the promise of the active
    response callback settles. *)
Definition activeResponseCallback_finally (handle : Z) (id : string) : M unit :=
  emit (Proxy_handleProgressComplete handle id "ongoing").

(** ** $disposeChatSessionContent (lines 211-222) *)

Definition disposeChatSessionContent (providerHandle : Z) (sessionId : string) : M unit :=
  let key := sessionKey providerHandle sessionId in
  let* entry := gets (λ st, _extHostChatSessions st !! key) in
  match entry with
  | None => emit (LogWarn ("No chat session found for ID: " +:+ key))
  | Some entry =>
      emit (CtsCancel (disposeCts entry)) >>
      emit (StoreDispose (sessionDisposables (sessionObj entry))) >>
      modify (with_extHostChatSessions (delete key))
  end.

(** ** $invokeChatSessionRequestHandler and getModelForRequest (lines 224-252) *)

(** The locals alive across the [await]s of line 230. *)
Record InvokePending := {
  iv_entry : SessionEntry;
  iv_handler : Ref;
  iv_request : IChatAgentRequest;
  iv_history : list Ref;
  iv_token : CancellationToken;
}.

Inductive InvokeAwait :=
| AwaitLanguageModelByIdentifier (k : InvokePending)
| AwaitDefaultLanguageModel (k : InvokePending)
| AwaitRequestHandler.

(** [getModelForRequest] up to its first [await]. *)
Definition getModelForRequest (k : InvokePending) : M InvokeAwait :=
  let extension := extension (sessionObj (iv_entry k)) in
  match req_userSelectedModelId (iv_request k) with
  | Some modelId =>
      if Js.truthy modelId then
        emit (Call_getLanguageModelByIdentifier extension modelId) >>
        ret (AwaitLanguageModelByIdentifier k)
      else
        emit (Call_getDefaultLanguageModel extension) >>
        ret (AwaitDefaultLanguageModel k)
  | None =>
      emit (Call_getDefaultLanguageModel extension) >>
      ret (AwaitDefaultLanguageModel k)
  end.

(** Lines 230-233 once [getModelForRequest] has produced [model]. *)
Definition invokeChatSessionRequestHandler_withModel (k : InvokePending) (model : Ref)
  : M (Step IChatAgentResult InvokeAwait) :=
  let sessionObj := sessionObj (iv_entry k) in
  let* stream := getActiveRequestStream sessionObj (iv_request k) in
  emit (Call_requestHandler (iv_handler k) (iv_request k) model (extension sessionObj)
          (iv_history k) stream (iv_token k)) >>
  ret (Await AwaitRequestHandler).

Definition invokeChatSessionRequestHandler (handle : Z) (id : string)
    (request : IChatAgentRequest) (history : list Ref) (token : CancellationToken)
  : M (Step IChatAgentResult InvokeAwait) :=
  let* entry := gets (λ st, _extHostChatSessions st !! sessionKey handle id) in
  match entry with
  | None => ret (Done (Returned EmptyResult))
  | Some entry =>
      match requestHandler (session (sessionObj entry)) with
      | None => ret (Done (Returned EmptyResult))
      | Some handler =>
          let* pending :=
            getModelForRequest {| iv_entry := entry; iv_handler := handler;
                                  iv_request := request; iv_history := history;
                                  iv_token := token |} in
          ret (Await pending)
      end
  end.

(** [getLanguageModelByIdentifier] has settled. *)
Definition invokeChatSessionRequestHandler_resume_byIdentifier (k : InvokePending)
    (reply : Settled (option Ref)) : M (Step IChatAgentResult InvokeAwait) :=
  match reply with
  | Rejected err => ret (Done (Threw err))
  | Fulfilled (Some model) => invokeChatSessionRequestHandler_withModel k model
  | Fulfilled None =>
      emit (Call_getDefaultLanguageModel (extension (sessionObj (iv_entry k)))) >>
      ret (Await (AwaitDefaultLanguageModel k))
  end.

(** [getDefaultLanguageModel] has settled. *)
Definition invokeChatSessionRequestHandler_resume_default (k : InvokePending)
    (reply : Settled (option Ref)) : M (Step IChatAgentResult InvokeAwait) :=
  match reply with
  | Rejected err => ret (Done (Threw err))
  | Fulfilled (Some model) => invokeChatSessionRequestHandler_withModel k model
  | Fulfilled None => ret (Done (Threw "Language model unavailable"))
  end.

(** The request handler's promise has settled. *)
Definition invokeChatSessionRequestHandler_resume_handler (reply : Settled unit)
  : M (Outcome IChatAgentResult) :=
  match reply with
  | Rejected err => ret (Threw err)
  | Fulfilled _ => ret (Returned EmptyResult)
  end.

(** ** Executions *)

(** Everything that can happen to an instance: a method is called, a
    registration is disposed, a listener fires, or an awaited promise settles
    and its continuation runs.  Continuations are not tied to the call that
    created them, so the executions below include every real interleaving. *)
Inductive Op :=
| Op_registerChatSessionItemProvider (extension : IExtensionDescription)
    (chatSessionType : string) (provider : ChatSessionItemProvider)
| Op_dispose_itemProviderRegistration (r : Registration)
| Op_onDidChangeChatSessionItems_listener (chatSessionType : string)
| Op_registerChatSessionContentProvider (extension : IExtensionDescription)
    (chatSessionType : string) (provider : ChatSessionContentProvider)
| Op_dispose_contentProviderRegistration (r : Registration)
| Op_processArgument (arg : Argument)
| Op_showChatSession (extension : IExtensionDescription) (chatSessionType sessionId : string)
    (options : option ChatSessionShowOptions)
| Op_showChatSession_resume (reply : Settled unit)
| Op_provideChatSessionItems (handle : Z) (token : CancellationToken)
| Op_provideChatSessionItems_resume (reply : Settled (option (list ChatSessionItem)))
| Op_provideChatSessionContent (handle : Z) (id : string) (token : CancellationToken)
| Op_provideChatSessionContent_resume (k : ContentPending) (reply : Settled ChatSession)
| Op_activeResponseCallback_finally (handle : Z) (id : string)
| Op_disposeChatSessionContent (providerHandle : Z) (sessionId : string)
| Op_invokeChatSessionRequestHandler (handle : Z) (id : string) (request : IChatAgentRequest)
    (history : list Ref) (token : CancellationToken)
| Op_invokeChatSessionRequestHandler_resume_byIdentifier (k : InvokePending)
    (reply : Settled (option Ref))
| Op_invokeChatSessionRequestHandler_resume_default (k : InvokePending)
    (reply : Settled (option Ref))
| Op_invokeChatSessionRequestHandler_resume_handler (reply : Settled unit).

Definition void {A} (m : M A) : M unit := m >> ret tt.

Definition perform (op : Op) : M unit :=
  match op with
  | Op_registerChatSessionItemProvider e t p => void (registerChatSessionItemProvider e t p)
  | Op_dispose_itemProviderRegistration r => dispose_itemProviderRegistration r
  | Op_onDidChangeChatSessionItems_listener t => onDidChangeChatSessionItems_listener t
  | Op_registerChatSessionContentProvider e t p =>
      void (registerChatSessionContentProvider e t p)
  | Op_dispose_contentProviderRegistration r => dispose_contentProviderRegistration r
  | Op_processArgument arg => void (processArgument arg)
  | Op_showChatSession e t i o => void (showChatSession e t i o)
  | Op_showChatSession_resume r => void (showChatSession_resume r)
  | Op_provideChatSessionItems h t => void (provideChatSessionItems h t)
  | Op_provideChatSessionItems_resume r => void (provideChatSessionItems_resume r)
  | Op_provideChatSessionContent h i t => void (provideChatSessionContent h i t)
  | Op_provideChatSessionContent_resume k r => void (provideChatSessionContent_resume k r)
  | Op_activeResponseCallback_finally h i => activeResponseCallback_finally h i
  | Op_disposeChatSessionContent h i => disposeChatSessionContent h i
  | Op_invokeChatSessionRequestHandler h i r hist t =>
      void (invokeChatSessionRequestHandler h i r hist t)
  | Op_invokeChatSessionRequestHandler_resume_byIdentifier k r =>
      void (invokeChatSessionRequestHandler_resume_byIdentifier k r)
  | Op_invokeChatSessionRequestHandler_resume_default k r =>
      void (invokeChatSessionRequestHandler_resume_default k r)
  | Op_invokeChatSessionRequestHandler_resume_handler r =>
      void (invokeChatSessionRequestHandler_resume_handler r)
  end.

(** Run a sequence of operations from a state, collecting the outward calls. *)
Fixpoint run (ops : list Op) (st : State) : State * list Observed :=
  match ops with
  | [] => (st, [])
  | op :: rest =>
      let '(_, st1, ev1) := perform op st in
      let '(st2, ev2) := run rest st1 in
      (st2, ev1 ++ ev2)
  end.

(** The states an instance can be in, with the calls it has made so far. *)
Definition reachable (st : State) (trace : list Observed) : Prop :=
  ∃ ops, run ops initial = (st, trace).

(** ** Vocabulary of the properties *)

(** Outward calls that cancel a token source or dispose a store. *)
Definition releases (e : Event) : bool :=
  match e with
  | CtsCancel _ | StoreDispose _ => true
  | _ => false
  end.

(** The token an outward call hands to a provider, if the call is one. *)
Definition providerToken (e : Event) : option CancellationToken :=
  match e with
  | Call_provideChatSessionItems _ token => Some token
  | Call_provideChatSessionContent _ _ token => Some token
  | _ => None
  end.

(** Whether character [c] occurs in [s]. *)
Fixpoint occurs (c : ascii) (s : string) : bool :=
  match s with
  | EmptyString => false
  | String a rest => if decide (a = c) then true else occurs c rest
  end.

(** The session entry a suspended [$invokeChatSessionRequestHandler] works for. *)
Definition awaitedFor (a : InvokeAwait) : option (SessionEntry * Ref) :=
  match a with
  | AwaitLanguageModelByIdentifier k | AwaitDefaultLanguageModel k =>
      Some (iv_entry k, iv_handler k)
  | AwaitRequestHandler => None
  end.

(** The entry [$provideChatSessionContent] stores when it resumes in a state
    whose allocator stands at [o]: store [o], stream [o + 1], token source
    [o + 2]. *)
Definition storedEntry (k : ContentPending) (session : ChatSession) (o : ObjId) : SessionEntry :=
  {| sessionObj :=
       {| session := session;
          extension := cpe_extension (cp_provider k);
          proxy := (cp_handle k, cp_id k);
          sessionDisposables := o;
          stream := S o |};
     disposeCts := S (S o) |}.

(** The handles announced to the main thread, oldest first. *)
Definition registeredItemHandles (trace : list Event) : list Z :=
  omap (λ e, match e with
             | Proxy_registerChatSessionItemProvider handle _ => Some handle
             | _ => None
             end) trace.

Definition registeredContentHandles (trace : list Event) : list Z :=
  omap (λ e, match e with
             | Proxy_registerChatSessionContentProvider handle _ => Some handle
             | _ => None
             end) trace.

(** The object an outward call brings into being, if any. *)
Definition allocated (e : Event) : option ObjId :=
  match e with
  | NewDisposableStore o | NewCancellationTokenSource o
  | NewChatAgentResponseStream o _ _ _ _
  | Subscribe_onDidChangeChatSessionItems _ _ o => Some o
  | _ => None
  end.

(** No two entries of the session map share a store or a token source. *)
Definition ownResources (st : State) : Prop :=
  ∀ key1 key2 entry1 entry2,
    key1 ≠ key2 →
    _extHostChatSessions st !! key1 = Some entry1 →
    _extHostChatSessions st !! key2 = Some entry2 →
    sessionDisposables (sessionObj entry1) ≠ sessionDisposables (sessionObj entry2)
    ∧ disposeCts entry1 ≠ disposeCts entry2.

(** What holds of the fields and of the calls made so far in every execution. *)
Record Inv (st : State) (trace : list Event) : Prop := {
  inv_counters :
    (0 ≤ _nextChatSessionItemProviderHandle st)%Z
    ∧ (0 ≤ _nextChatSessionContentProviderHandle st)%Z;
  inv_item_live : ∀ handle entry,
    _chatSessionItemProviders st !! handle = Some entry →
    (0 ≤ handle < _nextChatSessionItemProviderHandle st)%Z
    ∧ ipe_disposable entry < heapNext st;
  inv_content_live : ∀ handle entry,
    _chatSessionContentProviders st !! handle = Some entry →
    (0 ≤ handle < _nextChatSessionContentProviderHandle st)%Z
    ∧ cpe_disposable entry < heapNext st;
  inv_item_registered : ∀ handle,
    handle ∈ registeredItemHandles trace →
    (0 ≤ handle < _nextChatSessionItemProviderHandle st)%Z;
  inv_content_registered : ∀ handle,
    handle ∈ registeredContentHandles trace →
    (0 ≤ handle < _nextChatSessionContentProviderHandle st)%Z;
  inv_item_announced : ∀ handle entry,
    _chatSessionItemProviders st !! handle = Some entry →
    handle ∈ registeredItemHandles trace;
  inv_content_announced : ∀ handle entry,
    _chatSessionContentProviders st !! handle = Some entry →
    handle ∈ registeredContentHandles trace;
  inv_item_NoDup : NoDup (registeredItemHandles trace);
  inv_content_NoDup : NoDup (registeredContentHandles trace);
  inv_allocated : ∀ e o, e ∈ trace → allocated e = Some o → o < heapNext st;
  inv_entry : ∀ key entry,
    _extHostChatSessions st !! key = Some entry →
    stream (sessionObj entry) = S (sessionDisposables (sessionObj entry))
    ∧ disposeCts entry = S (S (sessionDisposables (sessionObj entry)))
    ∧ disposeCts entry < heapNext st;
  inv_apart : ∀ key1 key2 entry1 entry2,
    key1 ≠ key2 →
    _extHostChatSessions st !! key1 = Some entry1 →
    _extHostChatSessions st !! key2 = Some entry2 →
    sessionDisposables (sessionObj entry1) + 3 ≤ sessionDisposables (sessionObj entry2)
    ∨ sessionDisposables (sessionObj entry2) + 3 ≤ sessionDisposables (sessionObj entry1);
}.

(** An item the loop of [$provideChatSessionItems] keeps. *)
Definition hasTruthyId (item : ChatSessionItem) : Prop :=
  Js.truthy (item_id item) = true.

(** A DTO that carries the [id], [label] and [iconPath] of an item. *)
Definition mirrors (item : ChatSessionItem) (dto : IChatSessionItem) : Prop :=
  dto_id dto = item_id item
  ∧ dto_label dto = item_label item
  ∧ dto_iconPath dto = item_iconPath item.

(** ** A small scenario

    One extension registers two item providers and one content provider; the
    main thread then asks the content provider for session ["s"], the
    provider answers, and the continuation stores the session. *)

Definition demo_extension : IExtensionDescription := {| identifier := "ext.demo" |}.

Definition demo_itemProvider (r : Ref) : ChatSessionItemProvider :=
  {| itemProvider_ref := r; onDidChangeChatSessionItems := Some (10 + r) |}.

Definition demo_contentProvider : ChatSessionContentProvider :=
  {| contentProvider_ref := 3 |}.

Definition demo_pending : ContentPending :=
  {| cp_handle := 0; cp_id := "s";
     cp_provider := {| cpe_provider := demo_contentProvider;
                       cpe_extension := demo_extension;
                       cpe_disposable := 4 |} |}.

Definition demo_session : ChatSession :=
  {| history := [ChatRequestTurn "hello"; ChatResponseTurn2 []];
     activeResponseCallback := Some 20;
     requestHandler := Some 21 |}.

Definition demo_ops : list Op :=
  [Op_registerChatSessionItemProvider demo_extension "demo" (demo_itemProvider 1);
   Op_registerChatSessionItemProvider demo_extension "demo" (demo_itemProvider 2);
   Op_registerChatSessionContentProvider demo_extension "demo" demo_contentProvider;
   Op_provideChatSessionContent 0 "s" (CallerToken 5);
   Op_provideChatSessionContent_resume demo_pending (Fulfilled demo_session)].

(** Two items that share an id. *)
Definition demo_first : ChatSessionItem :=
  {| item_id := "a"; item_label := "first"; item_iconPath := None |}.

Definition demo_second : ChatSessionItem :=
  {| item_id := "a"; item_label := "second"; item_iconPath := Some 7 |}.

(** ** Which operation may write which field *)

Definition writesItemProviders (op : Op) : bool :=
  match op with
  | Op_registerChatSessionItemProvider _ _ _
  | Op_dispose_itemProviderRegistration _ => true
  | _ => false
  end.

Definition writesContentProviders (op : Op) : bool :=
  match op with
  | Op_registerChatSessionContentProvider _ _ _
  | Op_dispose_contentProviderRegistration _ => true
  | _ => false
  end.

Definition registersItemProvider (op : Op) : bool :=
  match op with
  | Op_registerChatSessionItemProvider _ _ _ => true
  | _ => false
  end.

Definition registersContentProvider (op : Op) : bool :=
  match op with
  | Op_registerChatSessionContentProvider _ _ _ => true
  | _ => false
  end.

Definition writesSessionMap (op : Op) : bool :=
  match op with
  | Op_provideChatSessionItems_resume (Fulfilled (Some _)) => true
  | _ => false
  end.

Definition storesSession (op : Op) : bool :=
  match op with
  | Op_provideChatSessionContent_resume _ (Fulfilled _) => true
  | _ => false
  end.

Definition writesSessions (op : Op) : bool :=
  match op with
  | Op_provideChatSessionContent_resume _ (Fulfilled _)
  | Op_disposeChatSessionContent _ _ => true
  | _ => false
  end.

(** Every entry of the item map sits under its own, truthy, id. *)
Definition keyedById (st : State) : Prop :=
  ∀ key item, _sessionMap st !! key = Some item →
    item_id item = key ∧ Js.truthy key = true.


(** The request a stream was constructed for. *)
Definition streamRequest (e : Event) : option IChatAgentRequest :=
  match e with
  | NewChatAgentResponseStream _ _ request _ _ => Some request
  | _ => None
  end.

(** ** A request handled without interruption

    [$invokeChatSessionRequestHandler] run from its call to its end, with
    nothing else running at its [await]s; the three promises it may wait for
    settle as [replies] says. *)

Record InvokeReplies := {
  byIdentifier : Settled (option Ref);
  defaultModel : Settled (option Ref);
  handled : Settled unit;
}.

Definition invokeChatSessionRequestHandler_resume (replies : InvokeReplies)
    (a : InvokeAwait) : M (Step IChatAgentResult InvokeAwait) :=
  match a with
  | AwaitLanguageModelByIdentifier k =>
      invokeChatSessionRequestHandler_resume_byIdentifier k (byIdentifier replies)
  | AwaitDefaultLanguageModel k =>
      invokeChatSessionRequestHandler_resume_default k (defaultModel replies)
  | AwaitRequestHandler =>
      let* o := invokeChatSessionRequestHandler_resume_handler (handled replies) in
      ret (Done o)
  end.

(** Resumes up to [awaits] times. *)
Fixpoint settle (awaits : nat) (replies : InvokeReplies)
    (s : Step IChatAgentResult InvokeAwait) : M (Step IChatAgentResult InvokeAwait) :=
  match s, awaits with
  | Await a, S awaits =>
      let* s' := invokeChatSessionRequestHandler_resume replies a in
      settle awaits replies s'
  | _, _ => ret s
  end.

Definition invokeChatSessionRequestHandler_settled (awaits : nat) (replies : InvokeReplies)
    (handle : Z) (id : string) (request : IChatAgentRequest) (history : list Ref)
    (token : CancellationToken) : M (Step IChatAgentResult InvokeAwait) :=
  let* s := invokeChatSessionRequestHandler handle id request history token in
  settle awaits replies s.

(** What [getModelForRequest] comes to, read off lines 239-252: the model the
    user selected if an id is given and a model is found for it, else the
    default model; a rejected lookup is not caught. *)
Definition modelForRequest (request : IChatAgentRequest) (replies : InvokeReplies)
  : Settled (option Ref) :=
  if Js.truthy_opt (req_userSelectedModelId request) then
    match byIdentifier replies with
    | Fulfilled (Some model) => Fulfilled (Some model)
    | Fulfilled None => defaultModel replies
    | Rejected err => Rejected err
    end
  else defaultModel replies.

(** The language model lookups made on the way, in order. *)
Definition modelLookups (extension : IExtensionDescription) (request : IChatAgentRequest)
    (replies : InvokeReplies) : list Event :=
  match req_userSelectedModelId request with
  | Some modelId =>
      if Js.truthy modelId then
        Call_getLanguageModelByIdentifier extension modelId
        :: match byIdentifier replies with
           | Fulfilled None => [Call_getDefaultLanguageModel extension]
           | _ => []
           end
      else [Call_getDefaultLanguageModel extension]
  | None => [Call_getDefaultLanguageModel extension]
  end.


(** A request of the user for the stored session, with a model selected, and
    promises that settle with no model under the selected id, a default model
    and a handler that completes. *)
Definition demo_request : IChatAgentRequest :=
  {| req_sessionId := "s.0"; req_requestId := "r1"; req_agentId := "s";
     req_message := "hi"; req_variables := []; req_location := Panel;
     req_userSelectedModelId := Some "gpt" |}.

Definition demo_replies : InvokeReplies :=
  {| byIdentifier := Fulfilled None;
     defaultModel := Fulfilled (Some 30);
     handled := Fulfilled tt |}.

(** * Properties *)

(** Unfolds the monad so that a method applied to a state computes. *)
Ltac unfold_M :=
  unfold void, postIncrement, new_ExtHostChatSession, getActiveRequestStream,
    new, bind, ret, gets, modify, emit, result, final, calls in *.

(** ** Unknown handles and keys *)

(** C8: for a handle with no registered item provider, [$provideChatSessionItems]
    returns the empty list, does not throw, and leaves every field as it was;
    its one outward call is the error it logs. *)
Theorem provideChatSessionItems_unregistered handle token st :
  _chatSessionItemProviders st !! handle = None →
  provideChatSessionItems handle token st =
    (Done (Returned []), st,
     [observe (LogError ("No provider registered for handle " +:+ Js.numberToString handle)) st]).
Proof.
  intros Hnone. unfold provideChatSessionItems. unfold_M. by rewrite Hnone.
Qed.

(** C9: for a handle with no registered content provider,
    [$provideChatSessionContent] throws, makes no outward call and leaves every
    field, the session map included, as it was. *)
Theorem provideChatSessionContent_unregistered handle id token st :
  _chatSessionContentProviders st !! handle = None →
  provideChatSessionContent handle id token st =
    (Done (Threw ("No provider for handle " +:+ Js.numberToString handle)), st, []).
Proof.
  intros Hnone. unfold provideChatSessionContent. unfold_M. by rewrite Hnone.
Qed.

(** C10: when the composite key is not in the session map,
    [$disposeChatSessionContent] returns normally with every field unchanged;
    nothing is cancelled and nothing is disposed, its one outward call is the
    warning it logs. *)
Theorem disposeChatSessionContent_unknown providerHandle sessionId st :
  _extHostChatSessions st !! sessionKey providerHandle sessionId = None →
  let r := disposeChatSessionContent providerHandle sessionId st in
  r = (tt, st,
       [observe (LogWarn ("No chat session found for ID: "
                          +:+ sessionKey providerHandle sessionId)) st])
  ∧ final r = st
  ∧ _extHostChatSessions (final r) = _extHostChatSessions st
  ∧ filter (λ e, releases e = true) (calls r) = [].
Proof.
  intros Hnone. unfold disposeChatSessionContent. unfold_M. simpl.
  rewrite Hnone. done.
Qed.

(** ** Release order *)

(** C3: for a known session, [$disposeChatSessionContent] makes exactly two
    outward calls, first the [cancel] of the entry's token source and then the
    [dispose] of the entry's store; the entry is still in the map at both
    calls and is removed afterwards, so that no entry remains under
    [providerHandle + '_' + sessionId] when the method returns. *)
Theorem disposeChatSessionContent_release_order providerHandle sessionId entry st :
  _extHostChatSessions st !! sessionKey providerHandle sessionId = Some entry →
  let r := disposeChatSessionContent providerHandle sessionId st in
  calls r = [CtsCancel (disposeCts entry);
             StoreDispose (sessionDisposables (sessionObj entry))]
  ∧ Forall (λ o, _extHostChatSessions (fields o)
                   !! sessionKey providerHandle sessionId = Some entry) r.2
  ∧ final r = with_extHostChatSessions
                (delete (sessionKey providerHandle sessionId)) st
  ∧ _extHostChatSessions (final r)
      !! (Js.numberToString providerHandle +:+ "_" +:+ sessionId) = None.
Proof.
  intros Hentry. unfold disposeChatSessionContent. unfold_M. simpl.
  rewrite Hentry. simpl. repeat split.
  - by repeat constructor.
  - apply lookup_delete_eq.
Qed.

(** ** Tokens *)

(** C6: the token given to [$provideChatSessionItems] is the one the provider's
    [provideChatSessionItems] receives, the token given to
    [$provideChatSessionContent] is the one the provider's
    [provideChatSessionContent] receives, and neither method ever hands a
    provider any other token. *)
Theorem cancellation_token_forwarded st token :
  (∀ handle entry, _chatSessionItemProviders st !! handle = Some entry →
     calls (provideChatSessionItems handle token st)
     = [Call_provideChatSessionItems (ipe_provider entry) token])
  ∧ (∀ handle id entry, _chatSessionContentProviders st !! handle = Some entry →
       calls (provideChatSessionContent handle id token st)
       = [Call_provideChatSessionContent (cpe_provider entry) id token])
  ∧ (∀ handle e token', e ∈ calls (provideChatSessionItems handle token st) →
       providerToken e = Some token' → token' = token)
  ∧ (∀ handle id e token', e ∈ calls (provideChatSessionContent handle id token st) →
       providerToken e = Some token' → token' = token).
Proof.
  repeat split.
  - intros handle entry Hentry. unfold provideChatSessionItems. unfold_M.
    by rewrite Hentry.
  - intros handle id entry Hentry. unfold provideChatSessionContent. unfold_M.
    by rewrite Hentry.
  - intros handle e token'. unfold provideChatSessionItems. unfold_M.
    destruct (_chatSessionItemProviders st !! handle); simpl;
      intros ->%list_elem_of_singleton; simpl; congruence.
  - intros handle id e token'. unfold provideChatSessionContent. unfold_M.
    destruct (_chatSessionContentProviders st !! handle); simpl.
    + intros ->%list_elem_of_singleton; simpl; congruence.
    + by intros ?%elem_of_nil.
Qed.

(** ** Composite keys *)

Lemma occurs_app c s t : occurs c (s +:+ t) = occurs c s || occurs c t.
Proof. induction s as [|a s IH]; simpl; [done|]. by case_decide. Qed.

Lemma pretty_N_go_occurs c x s :
  occurs c s = false → (∀ d, (d < 10)%N → pretty_N_char d ≠ c) →
  occurs c (pretty_N_go x s) = false.
Proof.
  intros Hs Hdigit. revert s Hs.
  induction (N.lt_wf_0 x) as [x _ IH]; intros s Hs.
  destruct (decide (x = 0)%N) as [->|Hpos]; [by rewrite pretty_N_go_0|].
  rewrite pretty_N_go_step by lia.
  apply IH; [apply N.div_lt; lia|]. simpl.
  rewrite decide_False; [done|]. apply Hdigit, N.mod_lt. lia.
Qed.

Lemma digit_not_underscore d : (d < 10)%N → pretty_N_char d ≠ "_"%char.
Proof. intros _. unfold pretty_N_char. by repeat case_match. Qed.

Lemma pretty_N_no_underscore (x : N) : occurs "_" (pretty x) = false.
Proof.
  unfold pretty, pretty_N. case_decide; [done|].
  apply pretty_N_go_occurs; [done|]. apply digit_not_underscore.
Qed.

(** A printed handle never contains the separator. *)
Lemma numberToString_no_underscore n : occurs "_" (Js.numberToString n) = false.
Proof.
  destruct n as [|p|p].
  - done.
  - apply (pretty_N_no_underscore (Npos p)).
  - change (occurs "_" (String "-" (pretty (Npos p))) = false). simpl.
    apply pretty_N_no_underscore.
Qed.

Lemma separator_splits c s1 s2 t1 t2 :
  occurs c s1 = false → occurs c s2 = false →
  s1 +:+ String c t1 = s2 +:+ String c t2 → s1 = s2 ∧ t1 = t2.
Proof.
  revert s2. induction s1 as [|a s1 IH]; intros [|b s2]; simpl.
  - intros _ _ [= ->]. done.
  - intros _ Hb [= <- _]. by rewrite decide_True in Hb.
  - intros Ha _ [= -> _]. by rewrite decide_True in Ha.
  - intros Ha Hb [= -> Hrest]. case_decide; [done|].
    destruct (IH s2 Ha Hb Hrest) as [-> ->]. done.
Qed.

(** Two (handle, id) pairs with the same key are the same pair. *)
Lemma sessionKey_inj handle1 id1 handle2 id2 :
  sessionKey handle1 id1 = sessionKey handle2 id2 → handle1 = handle2 ∧ id1 = id2.
Proof.
  unfold sessionKey. intros Hkey.
  apply separator_splits in Hkey as [Hh ->];
    [|apply numberToString_no_underscore..].
  split; [|done]. by apply (inj pretty).
Qed.

(** ** What a resumed [$provideChatSessionContent] does *)

Lemma provideChatSessionContent_resume_fulfilled k session st :
  let r := provideChatSessionContent_resume k (Fulfilled session) st in
  let o := heapNext st in
  _extHostChatSessions (final r)
    = <[sessionKey (cp_handle k) (cp_id k) := storedEntry k session o]>
        (_extHostChatSessions st)
  ∧ heapNext (final r) = S (S (S o))
  ∧ _sessionHandlePool (final r) = Z.succ (_sessionHandlePool st)
  ∧ _chatSessionItemProviders (final r) = _chatSessionItemProviders st
  ∧ _chatSessionContentProviders (final r) = _chatSessionContentProviders st
  ∧ _nextChatSessionItemProviderHandle (final r) = _nextChatSessionItemProviderHandle st
  ∧ _nextChatSessionContentProviderHandle (final r)
      = _nextChatSessionContentProviderHandle st
  ∧ _sessionMap (final r) = _sessionMap st
  ∧ result r = Returned
      {| csd_id := Js.numberToString (_sessionHandlePool st);
         hasActiveResponseCallback := isSome (activeResponseCallback session);
         hasRequestHandler := isSome (requestHandler session);
         csd_history := map (historyToDto o) (history session) |}
  ∧ ∃ request,
      calls r =
        [NewDisposableStore o;
         NewChatAgentResponseStream (S o) (cpe_extension (cp_provider k)) request
           (cp_handle k, cp_id k) o;
         NewCancellationTokenSource (S (S o));
         StoreAdd o (S (S o))]
        ++ match activeResponseCallback session with
           | Some callback =>
               [Call_activeResponseCallback callback (S o) (SourceToken (S (S o)))]
           | None => []
           end.
Proof.
  unfold provideChatSessionContent_resume, storedEntry, activeResponseStream.
  unfold_M. simpl.
  destruct (activeResponseCallback session); simpl; repeat split; eauto.
Qed.

(** C1: sessions are correlated by the composite key [handle + '_' + id].
    [$provideChatSessionContent(handle, id, token)] suspends with that very
    pair and, once resumed, stores the provider's session under
    [handle + '_' + id], leaving every other key alone;
    [$disposeChatSessionContent(handle, id)] releases and removes the entry
    found under that key and no other; [$invokeChatSessionRequestHandler(handle,
    id, ...)] works for the entry found under that key, or returns [{}] when
    there is none: it suspends keeping that entry, its handler, the request,
    the history and the token, its continuations, whenever they run, make the
    request's stream over that entry's extension, progress proxy and store
    and call that entry's handler with it, and run without interruption it
    makes these calls and no others but the model lookups; and no other
    (handle, id) pair has the same key. *)
Theorem sessions_correlated_by_composite_key handle id :
  let key := (Js.numberToString handle +:+ "_" +:+ id)%string in
  (∀ st token provider,
     _chatSessionContentProviders st !! handle = Some provider →
     result (provideChatSessionContent handle id token st)
     = Await {| cp_handle := handle; cp_id := id; cp_provider := provider |})
  ∧ (∀ st provider chatSession,
       let k := {| cp_handle := handle; cp_id := id; cp_provider := provider |} in
       let st1 := final (provideChatSessionContent_resume k (Fulfilled chatSession) st) in
       (∃ entry, _extHostChatSessions st1 !! key = Some entry
                 ∧ session (sessionObj entry) = chatSession)
       ∧ ∀ key', key' ≠ key →
           _extHostChatSessions st1 !! key' = _extHostChatSessions st !! key')
  ∧ (∀ st entry,
       _extHostChatSessions st !! key = Some entry →
       let r := disposeChatSessionContent handle id st in
       calls r = [CtsCancel (disposeCts entry);
                  StoreDispose (sessionDisposables (sessionObj entry))]
       ∧ _extHostChatSessions (final r) = delete key (_extHostChatSessions st))
  ∧ (∀ st entry request history token,
       _extHostChatSessions st !! key = Some entry →
       let r := invokeChatSessionRequestHandler handle id request history token st in
       final r = st
       ∧ match requestHandler (session (sessionObj entry)) with
         | Some handler =>
             ∃ pending, result r = Await pending
                        ∧ awaitedFor pending = Some (entry, handler)
                        ∧ let k := {| iv_entry := entry; iv_handler := handler;
                                      iv_request := request; iv_history := history;
                                      iv_token := token |} in
                          pending = AwaitLanguageModelByIdentifier k
                          ∨ pending = AwaitDefaultLanguageModel k
         | None => result r = Done (Returned EmptyResult)
         end)
  ∧ (∀ st request history token,
       _extHostChatSessions st !! key = None →
       invokeChatSessionRequestHandler handle id request history token st
       = (Done (Returned EmptyResult), st, []))
  ∧ (∀ handle' id', sessionKey handle' id' = key → handle' = handle ∧ id' = id)
  ∧ (∀ k model st',
       let this := sessionObj (iv_entry k) in
       let made :=
         [NewChatAgentResponseStream (heapNext st') (extension this) (iv_request k)
            (proxy this) (sessionDisposables this);
          Call_requestHandler (iv_handler k) (iv_request k) model (extension this)
            (iv_history k) (heapNext st') (iv_token k)] in
       calls (invokeChatSessionRequestHandler_resume_byIdentifier k
                (Fulfilled (Some model)) st') = made
       ∧ calls (invokeChatSessionRequestHandler_resume_default k
                  (Fulfilled (Some model)) st') = made)
  ∧ (∀ st entry handler request history token replies,
       _extHostChatSessions st !! key = Some entry →
       requestHandler (session (sessionObj entry)) = Some handler →
       let this := sessionObj entry in
       calls (invokeChatSessionRequestHandler_settled 3 replies handle id request
                history token st)
       = modelLookups (extension this) request replies
         ++ match modelForRequest request replies with
            | Fulfilled (Some model) =>
                [NewChatAgentResponseStream (heapNext st) (extension this) request
                   (proxy this) (sessionDisposables this);
                 Call_requestHandler handler request model (extension this) history
                   (heapNext st) token]
            | _ => []
            end).
Proof.
  intros key. repeat apply conj.
  - intros st token provider Hp. unfold provideChatSessionContent. unfold_M.
    by rewrite Hp.
  - intros st provider chatSession k st1.
    destruct (provideChatSessionContent_resume_fulfilled k chatSession st)
      as (Hmap & _).
    subst st1. rewrite Hmap. split.
    + eexists. split; [apply lookup_insert_eq|done].
    + intros key' Hne. by rewrite lookup_insert_ne.
  - intros st entry Hentry r. subst r.
    unfold disposeChatSessionContent, sessionKey. unfold_M. simpl.
    fold key. by rewrite Hentry.
  - intros st entry request history token Hentry r. subst r.
    unfold invokeChatSessionRequestHandler, getModelForRequest, sessionKey.
    unfold_M. simpl. fold key. rewrite Hentry.
    destruct (requestHandler (session (sessionObj entry))) as [handler|]; [|done].
    destruct (req_userSelectedModelId request) as [modelId|]; simpl;
      [destruct (Js.truthy modelId); simpl|]; eauto 10.
  - intros st request history token Hnone.
    unfold invokeChatSessionRequestHandler, sessionKey. unfold_M. simpl.
    fold key. by rewrite Hnone.
  - intros handle' id'. apply sessionKey_inj.
  - done.
  - intros st entry handler request history token replies Hentry Hhandler this.
    subst this.
    unfold invokeChatSessionRequestHandler_settled, invokeChatSessionRequestHandler,
      modelForRequest, modelLookups, Js.truthy_opt, sessionKey.
    unfold_M. fold key. rewrite Hentry. simpl. rewrite Hhandler. simpl.
    unfold getModelForRequest. unfold_M. simpl.
    destruct replies as [byId dflt hnd]. simpl.
    destruct (req_userSelectedModelId request) as [modelId|]; simpl;
      [destruct (Js.truthy modelId); simpl;
       [destruct byId as [[model|]|err]; simpl|]|];
      try (destruct dflt as [[model'|]|err']; simpl);
      try (destruct hnd as [[]|err'']; simpl);
      done.
Qed.

(** ** Invariants of executions *)

Lemma provideChatSessionItems_loop_frame sessions response st :
  let r := provideChatSessionItems_loop sessions response st in
  r.2 = []
  ∧ final r = with_sessionMap (λ _, _sessionMap (final r)) st.
Proof.
  revert response st. induction sessions as [|item rest IH]; intros response st.
  - destruct st; done.
  - simpl. destruct (Js.truthy (item_id item)); [|apply IH].
    unfold_M. simpl.
    match goal with |- context [provideChatSessionItems_loop rest ?resp ?st1] =>
      specialize (IH resp st1); destruct (provideChatSessionItems_loop rest resp st1)
        as [[out st2] ev] end.
    simpl in *. destruct IH as [-> ->]. done.
Qed.

Lemma Inv_initial : Inv initial [].
Proof.
  split; simpl; try done; try apply NoDup_nil_2;
    try (intros ??; rewrite lookup_empty; done);
    try (intros ?; by rewrite elem_of_nil).
  intros e o He. by apply elem_of_nil in He.
Qed.

(** One step of bookkeeping: how the fields and the calls of an operation may
    differ from what was there before without breaking [Inv]. *)
Lemma Inv_step st trace st' evs :
  Inv st trace →
  heapNext st ≤ heapNext st' →
  (_nextChatSessionItemProviderHandle st ≤ _nextChatSessionItemProviderHandle st')%Z →
  (_nextChatSessionContentProviderHandle st
   ≤ _nextChatSessionContentProviderHandle st')%Z →
  (∀ handle entry, _chatSessionItemProviders st' !! handle = Some entry →
     _chatSessionItemProviders st !! handle = Some entry
     ∨ (handle = _nextChatSessionItemProviderHandle st
        ∧ (handle < _nextChatSessionItemProviderHandle st')%Z
        ∧ ipe_disposable entry < heapNext st'
        ∧ handle ∈ registeredItemHandles evs)) →
  (∀ handle entry, _chatSessionContentProviders st' !! handle = Some entry →
     _chatSessionContentProviders st !! handle = Some entry
     ∨ (handle = _nextChatSessionContentProviderHandle st
        ∧ (handle < _nextChatSessionContentProviderHandle st')%Z
        ∧ cpe_disposable entry < heapNext st'
        ∧ handle ∈ registeredContentHandles evs)) →
  (registeredItemHandles evs = []
   ∨ registeredItemHandles evs = [_nextChatSessionItemProviderHandle st]
     ∧ (_nextChatSessionItemProviderHandle st
        < _nextChatSessionItemProviderHandle st')%Z) →
  (registeredContentHandles evs = []
   ∨ registeredContentHandles evs = [_nextChatSessionContentProviderHandle st]
     ∧ (_nextChatSessionContentProviderHandle st
        < _nextChatSessionContentProviderHandle st')%Z) →
  (∀ e o, e ∈ evs → allocated e = Some o → o < heapNext st') →
  (∀ key entry, _extHostChatSessions st' !! key = Some entry →
     _extHostChatSessions st !! key = Some entry
     ∨ (stream (sessionObj entry) = S (sessionDisposables (sessionObj entry))
        ∧ disposeCts entry = S (S (sessionDisposables (sessionObj entry)))
        ∧ heapNext st ≤ sessionDisposables (sessionObj entry)
        ∧ disposeCts entry < heapNext st')) →
  (∀ key1 key2 entry1 entry2, key1 ≠ key2 →
     _extHostChatSessions st' !! key1 = Some entry1 →
     _extHostChatSessions st' !! key2 = Some entry2 →
     _extHostChatSessions st !! key1 = Some entry1
     ∨ _extHostChatSessions st !! key2 = Some entry2) →
  Inv st' (trace ++ evs).
Proof.
  intros [[Hci Hcc] Hil Hcl Hir Hcr Hia Hca Hin Hcn Hal Hen Hap]
    Hheap Hnexti Hnextc Hitems Hcontents Hregi Hregc Hnew Hsess Hone.
  split.
  - lia.
  - intros handle entry [Hold|(-> & ? & ? & _)]%Hitems; [|lia].
    destruct (Hil _ _ Hold). lia.
  - intros handle entry [Hold|(-> & ? & ? & _)]%Hcontents; [|lia].
    destruct (Hcl _ _ Hold). lia.
  - intros handle. unfold registeredItemHandles in *. rewrite omap_app.
    intros [Hold|Hnow]%elem_of_app.
    + specialize (Hir _ Hold). lia.
    + destruct Hregi as [Hnone|[Hone' ?]].
      * rewrite Hnone in Hnow. by apply elem_of_nil in Hnow.
      * rewrite Hone' in Hnow. apply list_elem_of_singleton in Hnow. lia.
  - intros handle. unfold registeredContentHandles in *. rewrite omap_app.
    intros [Hold|Hnow]%elem_of_app.
    + specialize (Hcr _ Hold). lia.
    + destruct Hregc as [Hnone|[Hone' ?]].
      * rewrite Hnone in Hnow. by apply elem_of_nil in Hnow.
      * rewrite Hone' in Hnow. apply list_elem_of_singleton in Hnow. lia.
  - intros handle entry Hlive. unfold registeredItemHandles in *.
    rewrite omap_app. apply elem_of_app.
    destruct (Hitems _ _ Hlive) as [Hold|(_ & _ & _ & ?)]; eauto.
  - intros handle entry Hlive. unfold registeredContentHandles in *.
    rewrite omap_app. apply elem_of_app.
    destruct (Hcontents _ _ Hlive) as [Hold|(_ & _ & _ & ?)]; eauto.
  - unfold registeredItemHandles in *. rewrite omap_app.
    destruct Hregi as [->|[-> ?]]; [by rewrite app_nil_r|].
    apply NoDup_app. repeat split; [done| |apply NoDup_singleton].
    intros handle Hold ->%list_elem_of_singleton. specialize (Hir _ Hold). lia.
  - unfold registeredContentHandles in *. rewrite omap_app.
    destruct Hregc as [->|[-> ?]]; [by rewrite app_nil_r|].
    apply NoDup_app. repeat split; [done| |apply NoDup_singleton].
    intros handle Hold ->%list_elem_of_singleton. specialize (Hcr _ Hold). lia.
  - intros e o [Hold|Hnow]%elem_of_app Ho.
    + specialize (Hal _ _ Hold Ho). lia.
    + eauto.
  - intros key entry [Hold|(? & ? & ? & ?)]%Hsess; [|done].
    destruct (Hen _ _ Hold) as (? & ? & ?). repeat split; [done..|lia].
  - intros key1 key2 entry1 entry2 Hne H1 H2.
    destruct (Hsess _ _ H1) as [Ho1|(_ & ? & ? & ?)],
             (Hsess _ _ H2) as [Ho2|(_ & ? & ? & ?)].
    + eauto.
    + destruct (Hen _ _ Ho1) as (_ & ? & ?). lia.
    + destruct (Hen _ _ Ho2) as (_ & ? & ?). lia.
    + destruct (Hone _ _ _ _ Hne H1 H2) as [Ho|Ho].
      * destruct (Hen _ _ Ho) as (_ & ? & ?). lia.
      * destruct (Hen _ _ Ho) as (_ & ? & ?). lia.
Qed.


(** Discharges one side condition of [Inv_step] for a concrete operation. *)
Ltac lookup_cases :=
  simpl; intros;
  repeat match goal with
    | H : context [<[_:=_]> _ !! _] |- _ => rewrite lookup_insert in H
    | H : context [delete _ _ !! _] |- _ => rewrite lookup_delete in H
    | H : context [decide _] |- _ => case_decide
    end;
  simplify_eq; auto;
  try (right; simpl; repeat split; first [lia | by constructor]).

Ltac calls_cases :=
  simpl; intros;
  repeat match goal with
    | H : _ ∈ _ :: _ |- _ => apply elem_of_cons in H as [->|H]
    | H : _ ∈ [] |- _ => by apply elem_of_nil in H
    end;
  simpl in *; simplify_eq; simpl; lia.

Ltac Inv_step_side :=
  first [ solve [simpl; lia]
        | solve [by left]
        | solve [right; split; [done|simpl; lia]]
        | solve [calls_cases]
        | solve [lookup_cases] ].

(** Splits on the innermost scrutinee the goal is stuck on. *)
Ltac branches :=
  repeat (simpl;
    match goal with
    | |- context [match ?x with _ => _ end] =>
        lazymatch x with
        | context [match _ with _ => _ end] => fail
        | _ => destruct x eqn:?
        end
    end);
  simpl.

Lemma Inv_perform op st trace :
  Inv st trace →
  Inv (final (perform op st)) (trace ++ calls (perform op st)).
Proof.
  intros HI.
  destruct op; simpl;
    unfold registerChatSessionItemProvider, dispose_itemProviderRegistration,
      onDidChangeChatSessionItems_listener, registerChatSessionContentProvider,
      dispose_contentProviderRegistration, processArgument, showChatSession,
      showChatSession_resume, provideChatSessionItems, provideChatSessionItems_resume,
      provideChatSessionContent, provideChatSessionContent_resume,
      activeResponseCallback_finally, disposeChatSessionContent,
      invokeChatSessionRequestHandler, getModelForRequest,
      invokeChatSessionRequestHandler_resume_byIdentifier,
      invokeChatSessionRequestHandler_resume_default,
      invokeChatSessionRequestHandler_withModel,
      invokeChatSessionRequestHandler_resume_handler;
    unfold_M; simpl.
  all: branches.
  all: try (apply (Inv_step _ _ _ _ HI); Inv_step_side).
  pose proof (provideChatSessionItems_loop_frame l [] st) as Hframe.
  rewrite Heqp in Hframe. unfold final in Hframe. simpl in Hframe.
  destruct Hframe as [-> ->]. simpl.
  apply (Inv_step _ _ _ _ HI); Inv_step_side.
Qed.

Lemma Inv_run ops st trace :
  Inv st trace →
  Inv (run ops st).1 (trace ++ (event <$> (run ops st).2)).
Proof.
  revert st trace. induction ops as [|op ops IH]; intros st trace HI; simpl.
  - by rewrite app_nil_r.
  - pose proof (Inv_perform op st trace HI) as Hop.
    unfold final, calls in Hop.
    destruct (perform op st) as [[[] st1] ev1]. simpl in Hop.
    specialize (IH st1 _ Hop). destruct (run ops st1) as [st2 ev2].
    simpl in *. by rewrite fmap_app, app_assoc.
Qed.

(** Every reachable state satisfies the invariant. *)
Lemma reachable_Inv st trace : reachable st trace → Inv st (event <$> trace).
Proof.
  intros [ops Hrun]. pose proof (Inv_run ops initial [] Inv_initial) as HI.
  by rewrite Hrun in HI.
Qed.

Lemma Inv_ownResources st trace : Inv st trace → ownResources st.
Proof.
  intros HI key1 key2 entry1 entry2 Hne H1 H2.
  destruct (inv_entry _ _ HI _ _ H1) as (_ & ? & _),
           (inv_entry _ _ HI _ _ H2) as (_ & ? & _).
  destruct (inv_apart _ _ HI _ _ _ _ Hne H1 H2); lia.
Qed.



(** ** Handles *)

Lemma registerChatSessionItemProvider_effect extension chatSessionType provider st :
  let r := registerChatSessionItemProvider extension chatSessionType provider st in
  let handle := _nextChatSessionItemProviderHandle st in
  reg_handle (result r) = handle
  ∧ _nextChatSessionItemProviderHandle (final r) = (handle + 1)%Z
  ∧ _chatSessionItemProviders (final r)
    = <[handle := {| ipe_provider := provider; ipe_extension := extension;
                     ipe_disposable := reg_disposables (result r) |}]>
        (_chatSessionItemProviders st)
  ∧ registeredItemHandles (calls r) = [handle].
Proof.
  unfold registerChatSessionItemProvider. unfold_M. simpl.
  destruct (onDidChangeChatSessionItems provider); simpl;
    repeat split; lia.
Qed.

Lemma registerChatSessionContentProvider_effect extension chatSessionType provider st :
  let r := registerChatSessionContentProvider extension chatSessionType provider st in
  let handle := _nextChatSessionContentProviderHandle st in
  reg_handle (result r) = handle
  ∧ _nextChatSessionContentProviderHandle (final r) = (handle + 1)%Z
  ∧ _chatSessionContentProviders (final r)
    = <[handle := {| cpe_provider := provider; cpe_extension := extension;
                     cpe_disposable := reg_disposables (result r) |}]>
        (_chatSessionContentProviders st)
  ∧ registeredContentHandles (calls r) = [handle].
Proof.
  unfold registerChatSessionContentProvider. unfold_M. simpl.
  repeat split; lia.
Qed.

(** C2: registrations are multiplexed by integer handle.  In every state an
    instance can reach, a registration of either kind gets the current value
    of that kind's counter as its handle and the counter goes up by one; that
    handle is held by no live registration and was never announced before, so
    the handles announced for one kind are pairwise distinct and every live
    registration sits under one of them; and [$provideChatSessionItems(handle)]
    calls the provider of the entry registered under [handle], which right
    after a registration is the provider just registered. *)
Theorem registrations_multiplexed_by_handle st trace :
  reachable st trace →
  (∀ extension chatSessionType provider,
     let r := registerChatSessionItemProvider extension chatSessionType provider st in
     let handle := _nextChatSessionItemProviderHandle st in
     reg_handle (result r) = handle
     ∧ _nextChatSessionItemProviderHandle (final r) = (handle + 1)%Z
     ∧ _chatSessionItemProviders st !! handle = None
     ∧ (handle ∉ registeredItemHandles (event <$> trace))
     ∧ registeredItemHandles (calls r) = [handle]
     ∧ (∀ other, other ≠ handle →
          _chatSessionItemProviders (final r) !! other
          = _chatSessionItemProviders st !! other)
     ∧ ∀ token,
         calls (provideChatSessionItems handle token (final r))
         = [Call_provideChatSessionItems provider token])
  ∧ (∀ extension chatSessionType provider,
       let r := registerChatSessionContentProvider extension chatSessionType provider st in
       let handle := _nextChatSessionContentProviderHandle st in
       reg_handle (result r) = handle
       ∧ _nextChatSessionContentProviderHandle (final r) = (handle + 1)%Z
       ∧ _chatSessionContentProviders st !! handle = None
       ∧ (handle ∉ registeredContentHandles (event <$> trace))
       ∧ registeredContentHandles (calls r) = [handle]
       ∧ (∀ other, other ≠ handle →
            _chatSessionContentProviders (final r) !! other
            = _chatSessionContentProviders st !! other)
       ∧ ∃ entry, _chatSessionContentProviders (final r) !! handle = Some entry
                  ∧ cpe_provider entry = provider)
  ∧ NoDup (registeredItemHandles (event <$> trace))
  ∧ NoDup (registeredContentHandles (event <$> trace))
  ∧ (∀ handle entry, _chatSessionItemProviders st !! handle = Some entry →
       handle ∈ registeredItemHandles (event <$> trace))
  ∧ (∀ handle entry, _chatSessionContentProviders st !! handle = Some entry →
       handle ∈ registeredContentHandles (event <$> trace))
  ∧ (∀ handle entry token,
       _chatSessionItemProviders st !! handle = Some entry →
       provideChatSessionItems handle token st
       = (Await tt, st,
          [observe (Call_provideChatSessionItems (ipe_provider entry) token) st])).
Proof.
  intros HI%reachable_Inv. repeat apply conj.
  - intros extension chatSessionType provider r handle.
    destruct (registerChatSessionItemProvider_effect extension chatSessionType
                provider st) as (Hh & Hnext & Hmap & Hreg).
    fold r handle in Hh, Hnext, Hmap, Hreg.
    assert (_chatSessionItemProviders st !! handle = None) as Hfree.
    { destruct (_chatSessionItemProviders st !! handle) as [entry|] eqn:Hlive;
        [|done].
      destruct (inv_item_live _ _ HI _ _ Hlive). subst handle. lia. }
    repeat split; try done.
    + intros Hin. apply (inv_item_registered _ _ HI) in Hin. subst handle. lia.
    + intros other Hne. rewrite Hmap. by rewrite lookup_insert_ne.
    + intros token. unfold provideChatSessionItems. unfold_M.
      rewrite Hmap, lookup_insert_eq. done.
  - intros extension chatSessionType provider r handle.
    destruct (registerChatSessionContentProvider_effect extension chatSessionType
                provider st) as (Hh & Hnext & Hmap & Hreg).
    fold r handle in Hh, Hnext, Hmap, Hreg.
    assert (_chatSessionContentProviders st !! handle = None) as Hfree.
    { destruct (_chatSessionContentProviders st !! handle) as [entry|] eqn:Hlive;
        [|done].
      destruct (inv_content_live _ _ HI _ _ Hlive). subst handle. lia. }
    repeat split; try done.
    + intros Hin. apply (inv_content_registered _ _ HI) in Hin. subst handle. lia.
    + intros other Hne. rewrite Hmap. by rewrite lookup_insert_ne.
    + eexists. rewrite Hmap, lookup_insert_eq. done.
  - apply (inv_item_NoDup _ _ HI).
  - apply (inv_content_NoDup _ _ HI).
  - apply (inv_item_announced _ _ HI).
  - apply (inv_content_announced _ _ HI).
  - intros handle entry token Hlive. unfold provideChatSessionItems. unfold_M.
    by rewrite Hlive.
Qed.

(** ** Per-session resources *)

(** C7: every successful [$provideChatSessionContent] creates a store and a
    token source that did not exist before, adds the token source to the
    store, and keeps both with the entry it stores; no entry already in the
    session map has either of them, and in every state an instance can reach
    no two entries of the session map share a store or a token source. *)
Theorem session_resources_tracked st trace :
  reachable st trace →
  (∀ k chatSession,
     let r := provideChatSessionContent_resume k (Fulfilled chatSession) st in
     ∃ store cts entry,
       (∃ dto, result r = Returned dto)
       ∧ NewDisposableStore store ∈ calls r
       ∧ NewCancellationTokenSource cts ∈ calls r
       ∧ StoreAdd store cts ∈ calls r
       ∧ _extHostChatSessions (final r) !! sessionKey (cp_handle k) (cp_id k)
         = Some entry
       ∧ sessionDisposables (sessionObj entry) = store
       ∧ disposeCts entry = cts
       ∧ (∀ e, e ∈ event <$> trace →
            allocated e ≠ Some store ∧ allocated e ≠ Some cts)
       ∧ (∀ key other, _extHostChatSessions st !! key = Some other →
            sessionDisposables (sessionObj other) ≠ store
            ∧ disposeCts other ≠ cts)
       ∧ ownResources (final r))
  ∧ ownResources st.
Proof.
  intros Hreach. pose proof (reachable_Inv _ _ Hreach) as HI.
  split; [|by eapply Inv_ownResources].
  intros k chatSession r.
  destruct (provideChatSessionContent_resume_fulfilled k chatSession st)
    as (Hmap & _ & _ & _ & _ & _ & _ & _ & Hres & request & Hcalls).
  fold r in Hmap, Hres, Hcalls.
  exists (heapNext st), (S (S (heapNext st))), (storedEntry k chatSession (heapNext st)).
  repeat apply conj.
  - eauto.
  - rewrite Hcalls. set_solver.
  - rewrite Hcalls. set_solver.
  - rewrite Hcalls. set_solver.
  - rewrite Hmap. apply lookup_insert_eq.
  - done.
  - done.
  - intros e He. split; intros Ho;
      pose proof (inv_allocated _ _ HI _ _ He Ho); lia.
  - intros key other Hother.
    destruct (inv_entry _ _ HI _ _ Hother) as (_ & ? & ?). lia.
  - pose proof (Inv_perform (Op_provideChatSessionContent_resume k (Fulfilled chatSession))
                  st _ HI) as HI'.
    apply Inv_ownResources in HI'.
    change (ownResources
              (final (void (provideChatSessionContent_resume k (Fulfilled chatSession))
                        st))) in HI'.
    unfold void, bind, ret, final in HI'. unfold r, final.
    by destruct (provideChatSessionContent_resume k (Fulfilled chatSession) st)
      as [[? ?] ?].
Qed.

(** ** DTOs *)

Lemma coalesce_map {A B} (f : A → option B) (array : list A) :
  coalesce (map f array) = omap f array.
Proof.
  induction array as [|a array IH]; simpl; [done|].
  destruct (f a); by rewrite IH.
Qed.

(** C5: the DTO of a session has one history element per turn, in order; a
    [ChatRequestTurn] gives [{ type: 'request', prompt }] with the turn's
    prompt, any other turn gives [{ type: 'response', parts }] whose parts
    are the conversions of the turn's response parts that are not
    [undefined], in order, converted against the session's own store; and
    each of the two flags is true exactly when the session has the callback,
    respectively the handler. *)
Theorem provideChatSessionContent_dto k chatSession st :
  let r := provideChatSessionContent_resume k (Fulfilled chatSession) st in
  ∃ dto entry,
    result r = Returned dto
    ∧ _extHostChatSessions (final r) !! sessionKey (cp_handle k) (cp_id k) = Some entry
    ∧ (hasActiveResponseCallback dto = true ↔ is_Some (activeResponseCallback chatSession))
    ∧ (hasRequestHandler dto = true ↔ is_Some (requestHandler chatSession))
    ∧ length (csd_history dto) = length (history chatSession)
    ∧ ∀ i turn, history chatSession !! i = Some turn →
        csd_history dto !! i
        = Some match turn with
               | ChatRequestTurn prompt => RequestDto prompt
               | ChatResponseTurn2 response =>
                   ResponseDto
                     (omap (λ part, ChatResponsePart_from part
                                      (sessionDisposables (sessionObj entry)))
                        response)
               end.
Proof.
  intros r.
  destruct (provideChatSessionContent_resume_fulfilled k chatSession st)
    as (Hmap & _ & _ & _ & _ & _ & _ & _ & Hres & _).
  fold r in Hmap, Hres. eexists _, (storedEntry k chatSession (heapNext st)).
  split; [exact Hres|]. simpl. split_and!.
  - rewrite Hmap. apply lookup_insert_eq.
  - destruct (activeResponseCallback chatSession); simpl; split; intros H;
      try done; try (by eexists); by destruct H.
  - destruct (requestHandler chatSession); simpl; split; intros H;
      try done; try (by eexists); by destruct H.
  - apply length_map.
  - intros i turn Hturn. rewrite list_lookup_fmap, Hturn. simpl.
    destruct turn as [prompt|response]; simpl; [done|].
    by rewrite coalesce_map.
Qed.

(** ** Session items *)

Lemma provideChatSessionItems_loop_skip item rest response st :
  Js.truthy (item_id item) = false →
  provideChatSessionItems_loop (item :: rest) response st
  = provideChatSessionItems_loop rest response st.
Proof. intros Hfalsy. simpl. by rewrite Hfalsy. Qed.

Lemma provideChatSessionItems_loop_keep item rest response st :
  Js.truthy (item_id item) = true →
  provideChatSessionItems_loop (item :: rest) response st
  = provideChatSessionItems_loop rest
      (response ++ [{| dto_id := item_id item; dto_label := item_label item;
                       dto_iconPath := item_iconPath item |}])
      (with_sessionMap (insert (item_id item) item) st).
Proof.
  intros Htruthy. simpl. rewrite Htruthy. unfold_M.
  by destruct (provideChatSessionItems_loop rest _ _) as [[? ?] ?].
Qed.

Lemma provideChatSessionItems_loop_response sessions response st :
  ∃ dtos,
    result (provideChatSessionItems_loop sessions response st) = response ++ dtos
    ∧ Forall2 mirrors (filter hasTruthyId sessions) dtos.
Proof.
  revert response st. induction sessions as [|item rest IH]; intros response st.
  - exists []. split; [by rewrite app_nil_r|constructor].
  - destruct (Js.truthy (item_id item)) eqn:Hid.
    + rewrite provideChatSessionItems_loop_keep by done.
      destruct (IH (response ++ [{| dto_id := item_id item;
                                     dto_label := item_label item;
                                     dto_iconPath := item_iconPath item |}])
                  (with_sessionMap (insert (item_id item) item) st))
        as (dtos & -> & Hdtos).
      eexists (_ :: dtos). split; [by rewrite <-app_assoc|].
      rewrite filter_cons_True by done. by constructor.
    + rewrite provideChatSessionItems_loop_skip by done.
      destruct (IH response st) as (dtos & -> & Hdtos).
      exists dtos. split; [done|].
      rewrite filter_cons_False; [done|]. unfold hasTruthyId. by rewrite Hid.
Qed.

Lemma provideChatSessionItems_loop_other sessions response st key :
  (∀ item, item ∈ sessions → hasTruthyId item → item_id item ≠ key) →
  _sessionMap (final (provideChatSessionItems_loop sessions response st)) !! key
  = _sessionMap st !! key.
Proof.
  revert response st. induction sessions as [|item rest IH]; intros response st Hkey.
  - done.
  - assert (∀ item', item' ∈ rest → hasTruthyId item' → item_id item' ≠ key)
      as Hrest by (intros ???; apply Hkey; [by right|done]).
    destruct (Js.truthy (item_id item)) eqn:Hid.
    + rewrite provideChatSessionItems_loop_keep, IH by done. simpl.
      apply lookup_insert_ne, Hkey; [by left|done].
    + rewrite provideChatSessionItems_loop_skip by done. by apply IH.
Qed.

Lemma provideChatSessionItems_loop_last sessions response st i item :
  sessions !! i = Some item →
  hasTruthyId item →
  (∀ j later, i < j → sessions !! j = Some later → item_id later ≠ item_id item) →
  _sessionMap (final (provideChatSessionItems_loop sessions response st))
    !! item_id item = Some item.
Proof.
  revert response st i. induction sessions as [|first rest IH];
    intros response st i Hi Htruthy Hlast; [done|].
  destruct i as [|i]; simpl in Hi.
  - injection Hi as ->.
    rewrite provideChatSessionItems_loop_keep by done.
    rewrite provideChatSessionItems_loop_other; [apply lookup_insert_eq|].
    intros later [j Hj]%list_elem_of_lookup _.
    apply (Hlast (S j)); [lia|done].
  - assert (∀ j later, i < j → rest !! j = Some later →
              item_id later ≠ item_id item) as Hrest.
    { intros j later Hlt Hj. apply (Hlast (S j)); [lia|done]. }
    destruct (Js.truthy (item_id first)) eqn:Hid.
    + rewrite provideChatSessionItems_loop_keep by done. by eapply IH.
    + rewrite provideChatSessionItems_loop_skip by done. by eapply IH.
Qed.

(** C4, as the code has it: the result holds, in provider order, one DTO for
    every item with a truthy id, with that item's [id], [label] and
    [iconPath], and nothing for an item whose id is falsy; no outward call is
    made and no field but the session map changes; the session map then
    holds, under each truthy id, the last item the provider returned with
    that id, and is unchanged at every key that is not the truthy id of a
    returned item, so that an item whose id is falsy adds no entry. *)
Theorem provideChatSessionItems_result sessions st :
  let r := provideChatSessionItems_resume (Fulfilled (Some sessions)) st in
  (∃ dtos, result r = Returned dtos
           ∧ Forall2 mirrors (filter hasTruthyId sessions) dtos)
  ∧ calls r = []
  ∧ final r = with_sessionMap (λ _, _sessionMap (final r)) st
  ∧ (∀ i item,
       sessions !! i = Some item →
       hasTruthyId item →
       (∀ j later, i < j → sessions !! j = Some later →
          item_id later ≠ item_id item) →
       _sessionMap (final r) !! item_id item = Some item)
  ∧ (∀ key,
       (∀ item, item ∈ sessions → hasTruthyId item → item_id item ≠ key) →
       _sessionMap (final r) !! key = _sessionMap st !! key).
Proof.
  intros r. subst r. unfold provideChatSessionItems_resume.
  pose proof (provideChatSessionItems_loop_response sessions [] st) as (dtos & Hres & Hdtos).
  pose proof (provideChatSessionItems_loop_frame sessions [] st) as [Hcalls Hframe].
  pose proof (provideChatSessionItems_loop_last sessions [] st) as Hlast.
  pose proof (provideChatSessionItems_loop_other sessions [] st) as Hother.
  unfold_M.
  destruct (provideChatSessionItems_loop sessions [] st) as [[out st1] ev].
  simpl in *. subst. split_and!; eauto.
Qed.

(** * Further properties of the class *)

Ltac unfold_methods :=
  unfold registerChatSessionItemProvider, dispose_itemProviderRegistration,
    onDidChangeChatSessionItems_listener, registerChatSessionContentProvider,
    dispose_contentProviderRegistration, processArgument, showChatSession,
    showChatSession_resume, provideChatSessionItems, provideChatSessionItems_resume,
    provideChatSessionContent, provideChatSessionContent_resume,
    activeResponseCallback_finally, disposeChatSessionContent,
    invokeChatSessionRequestHandler, getModelForRequest,
    invokeChatSessionRequestHandler_resume_byIdentifier,
    invokeChatSessionRequestHandler_resume_default,
    invokeChatSessionRequestHandler_withModel,
    invokeChatSessionRequestHandler_resume_handler in *.

(** Brings the one operation that runs a loop into the shape of the others. *)
Ltac loop_frame :=
  match goal with
  | H : provideChatSessionItems_loop ?l [] ?st = (_, _, _) |- _ =>
      let Hframe := fresh "Hframe" in
      pose proof (provideChatSessionItems_loop_frame l [] st) as Hframe;
      rewrite H in Hframe; unfold final in Hframe; simpl in Hframe;
      destruct Hframe as [-> ->]; simpl
  end.

(** ** Frames *)

(** X1: each field is written by the operations made for it and by no other:
    a provider map by the registration of its kind and the disposal of such a
    registration, a handle counter by a registration of its kind, the item map
    by a resumed [$provideChatSessionItems] that got an array, the session
    map by a resumed [$provideChatSessionContent] that got a session and by
    [$disposeChatSessionContent], the session pool by the former alone. *)
Theorem fields_written_by op st :
  let st' := final (perform op st) in
  (writesItemProviders op = false →
     _chatSessionItemProviders st' = _chatSessionItemProviders st)
  ∧ (writesContentProviders op = false →
       _chatSessionContentProviders st' = _chatSessionContentProviders st)
  ∧ (registersItemProvider op = false →
       _nextChatSessionItemProviderHandle st' = _nextChatSessionItemProviderHandle st)
  ∧ (registersContentProvider op = false →
       _nextChatSessionContentProviderHandle st'
       = _nextChatSessionContentProviderHandle st)
  ∧ (writesSessionMap op = false → _sessionMap st' = _sessionMap st)
  ∧ (writesSessions op = false → _extHostChatSessions st' = _extHostChatSessions st)
  ∧ (storesSession op = false → _sessionHandlePool st' = _sessionHandlePool st).
Proof.
  destruct op; simpl; unfold_methods; unfold_M; simpl; branches;
    try loop_frame; split_and!; simpl; intros; done.
Qed.

(** ** Handles are handed out in sequence *)

Lemma perform_registered op st :
  let r := perform op st in
  registeredItemHandles (calls r)
  = (if registersItemProvider op then [_nextChatSessionItemProviderHandle st] else [])
  ∧ _nextChatSessionItemProviderHandle (final r)
    = (if registersItemProvider op then _nextChatSessionItemProviderHandle st + 1
       else _nextChatSessionItemProviderHandle st)%Z
  ∧ registeredContentHandles (calls r)
    = (if registersContentProvider op
       then [_nextChatSessionContentProviderHandle st] else [])
  ∧ _nextChatSessionContentProviderHandle (final r)
    = (if registersContentProvider op then _nextChatSessionContentProviderHandle st + 1
       else _nextChatSessionContentProviderHandle st)%Z.
Proof.
  destruct op; simpl; unfold_methods; unfold_M; simpl; branches;
    try loop_frame; split_and!; simpl; first [done|lia].
Qed.

Lemma run_registered ops st :
  let r := run ops st in
  (_nextChatSessionItemProviderHandle st ≤ _nextChatSessionItemProviderHandle r.1)%Z
  ∧ registeredItemHandles (event <$> r.2)
    = seqZ (_nextChatSessionItemProviderHandle st)
        (_nextChatSessionItemProviderHandle r.1 - _nextChatSessionItemProviderHandle st)
  ∧ (_nextChatSessionContentProviderHandle st
     ≤ _nextChatSessionContentProviderHandle r.1)%Z
  ∧ registeredContentHandles (event <$> r.2)
    = seqZ (_nextChatSessionContentProviderHandle st)
        (_nextChatSessionContentProviderHandle r.1
         - _nextChatSessionContentProviderHandle st).
Proof.
  revert st. induction ops as [|op ops IH]; intros st; simpl.
  - rewrite !Z.sub_diag. split_and!; done.
  - pose proof (perform_registered op st) as (Hi & Hni & Hc & Hnc).
    unfold final, calls in Hi, Hni, Hc, Hnc.
    destruct (perform op st) as [[[] st1] ev1]. simpl in Hi, Hni, Hc, Hnc.
    specialize (IH st1). destruct (run ops st1) as [st2 ev2]. simpl in *.
    destruct IH as (Hle & Hri & Hlec & Hrc).
    unfold registeredItemHandles, registeredContentHandles in *.
    rewrite !fmap_app, !omap_app, Hi, Hri, Hc, Hrc, Hni, Hnc.
    split_and!.
    + destruct (registersItemProvider op); lia.
    + destruct (registersItemProvider op); simpl; [|done].
      rewrite Hni in Hle. rewrite (seqZ_cons (_nextChatSessionItemProviderHandle st))
        by lia.
      do 2 f_equal; lia.
    + destruct (registersContentProvider op); lia.
    + destruct (registersContentProvider op); simpl; [|done].
      rewrite Hnc in Hlec.
      rewrite (seqZ_cons (_nextChatSessionContentProviderHandle st)) by lia.
      do 2 f_equal; lia.
Qed.

(** X2: handles are handed out in sequence from 0.  In every state an
    instance can reach, the item provider handles announced to the main thread
    so far are 0, 1, ..., n - 1 in this order, n being the current value of the
    item counter, and the same holds of the content provider handles and
    their counter. *)
Theorem handles_announced_in_sequence st trace :
  reachable st trace →
  registeredItemHandles (event <$> trace)
  = seqZ 0 (_nextChatSessionItemProviderHandle st)
  ∧ registeredContentHandles (event <$> trace)
    = seqZ 0 (_nextChatSessionContentProviderHandle st).
Proof.
  intros [ops Hrun].
  pose proof (run_registered ops initial) as (_ & Hi & _ & Hc).
  rewrite Hrun in Hi, Hc. simpl in Hi, Hc.
  rewrite Z.sub_0_r in Hi, Hc. done.
Qed.

(** ** Session ids *)

Lemma perform_pool op st :
  (_sessionHandlePool st ≤ _sessionHandlePool (final (perform op st)))%Z.
Proof.
  destruct op; simpl; unfold_methods; unfold_M; simpl; branches;
    try loop_frame; simpl; lia.
Qed.

Lemma run_pool ops st :
  (_sessionHandlePool st ≤ _sessionHandlePool (run ops st).1)%Z.
Proof.
  revert st. induction ops as [|op ops IH]; intros st; simpl; [done|].
  pose proof (perform_pool op st) as Hop. unfold final in Hop.
  destruct (perform op st) as [[[] st1] ev1]. simpl in Hop.
  specialize (IH st1). destruct (run ops st1) as [st2 ev2]. simpl in *. lia.
Qed.

(** X3: the [id] of the DTO is never given twice.  Whatever happens between
    two successful [$provideChatSessionContent] calls, for the same session or
    for different ones, the two DTOs they return carry different ids. *)
Theorem session_dto_ids_distinct st k1 chatSession1 ops k2 chatSession2 :
  let r1 := provideChatSessionContent_resume k1 (Fulfilled chatSession1) st in
  let r2 := provideChatSessionContent_resume k2 (Fulfilled chatSession2)
              (run ops (final r1)).1 in
  ∃ dto1 dto2,
    result r1 = Returned dto1 ∧ result r2 = Returned dto2
    ∧ csd_id dto1 ≠ csd_id dto2.
Proof.
  intros r1 r2.
  destruct (provideChatSessionContent_resume_fulfilled k1 chatSession1 st)
    as (_ & _ & Hpool & _ & _ & _ & _ & _ & Hres1 & _).
  destruct (provideChatSessionContent_resume_fulfilled k2 chatSession2
              (run ops (final r1)).1)
    as (_ & _ & _ & _ & _ & _ & _ & _ & Hres2 & _).
  fold r1 in Hpool, Hres1. fold r2 in Hres2.
  eexists _, _. split; [exact Hres1|]. split; [exact Hres2|]. simpl.
  pose proof (run_pool ops (final r1)) as Hmono.
  intros Heq%(inj pretty). lia.
Qed.

(** ** The item map *)

Lemma provideChatSessionItems_loop_keyedById sessions response st :
  keyedById st →
  keyedById (final (provideChatSessionItems_loop sessions response st)).
Proof.
  revert response st. induction sessions as [|item rest IH]; intros response st Hst.
  - done.
  - destruct (Js.truthy (item_id item)) eqn:Hid.
    + rewrite provideChatSessionItems_loop_keep by done. apply IH.
      intros key stored. simpl. rewrite lookup_insert. case_decide.
      * intros [= <-]. by subst key.
      * apply Hst.
    + rewrite provideChatSessionItems_loop_skip by done. by apply IH.
Qed.

Lemma provideChatSessionItems_loop_keeps sessions response st key :
  is_Some (_sessionMap st !! key) →
  is_Some (_sessionMap (final (provideChatSessionItems_loop sessions response st))
             !! key).
Proof.
  revert response st. induction sessions as [|item rest IH]; intros response st Hst.
  - done.
  - destruct (Js.truthy (item_id item)) eqn:Hid.
    + rewrite provideChatSessionItems_loop_keep by done. apply IH. simpl.
      rewrite lookup_insert. by case_decide.
    + rewrite provideChatSessionItems_loop_skip by done. by apply IH.
Qed.

Lemma perform_sessionMap op st :
  let st' := final (perform op st) in
  (keyedById st → keyedById st')
  ∧ ∀ key, is_Some (_sessionMap st !! key) → is_Some (_sessionMap st' !! key).
Proof.
  destruct op; simpl; unfold_methods; unfold_M; simpl; branches; try done.
  match goal with
  | H : provideChatSessionItems_loop ?l [] ?st = (_, ?s, _) |- _ =>
      pose proof (provideChatSessionItems_loop_keyedById l [] st) as Hkeyed;
      pose proof (provideChatSessionItems_loop_keeps l [] st) as Hkeeps;
      rewrite H in Hkeyed, Hkeeps
  end.
  split; [exact Hkeyed|]. intros key. apply Hkeeps.
Qed.

Lemma run_sessionMap ops st :
  (keyedById st → keyedById (run ops st).1)
  ∧ ∀ key, is_Some (_sessionMap st !! key) →
      is_Some (_sessionMap (run ops st).1 !! key).
Proof.
  revert st. induction ops as [|op ops IH]; intros st; simpl; [done|].
  pose proof (perform_sessionMap op st) as [Hkeyed Hkeeps]. unfold final in *.
  destruct (perform op st) as [[[] st1] ev1]. simpl in *.
  specialize (IH st1). destruct (run ops st1) as [st2 ev2]. simpl in *.
  destruct IH as [IHkeyed IHkeeps]. split; [auto|]. intros key Hkey. auto.
Qed.

(** X4: in every state an instance can reach, each entry of the item map sits
    under its own id, which is truthy; so the argument processor, given a
    chat session context, answers either with the context itself or with an
    item whose id is the id asked for. *)
Theorem sessionMap_keyed_by_id st trace :
  reachable st trace →
  keyedById st
  ∧ ∀ id,
      match result (processArgument (ChatSessionContext id) st) with
      | SessionItem item => item_id item = id ∧ Js.truthy id = true
      | Untouched arg => arg = ChatSessionContext id
      end.
Proof.
  intros [ops Hrun].
  assert (keyedById st) as Hkeyed.
  { pose proof (proj1 (run_sessionMap ops initial)) as H. rewrite Hrun in H.
    apply H. intros key item. simpl. by rewrite lookup_empty. }
  split; [done|]. intros id. unfold processArgument. unfold_M.
  destruct (_sessionMap st !! id) as [item|] eqn:Hitem; simpl; [|done].
  by apply Hkeyed.
Qed.

(** X5: the item map only grows.  No operation removes an item: an id that
    resolves at some point resolves ever after. *)
Theorem sessionMap_never_forgets ops st key :
  is_Some (_sessionMap st !! key) →
  is_Some (_sessionMap (run ops st).1 !! key).
Proof. intros Hkey. by apply (proj2 (run_sessionMap ops st)). Qed.

(** ** Registering and unregistering *)

(** X6: registering an item provider and disposing what the registration
    returned leaves the provider map as it was before, in every state an
    instance can reach.  The disposal disposes the very store the
    registration created, then tells the main thread to unregister the
    handle; the handle is spent (the counter stays one up), and
    [$provideChatSessionItems] for it afterwards logs an error and returns
    the empty list. *)
Theorem itemProvider_register_dispose st trace extension chatSessionType provider token :
  reachable st trace →
  let r := registerChatSessionItemProvider extension chatSessionType provider st in
  let d := dispose_itemProviderRegistration (result r) (final r) in
  _chatSessionItemProviders (final d) = _chatSessionItemProviders st
  ∧ _nextChatSessionItemProviderHandle (final d)
    = (_nextChatSessionItemProviderHandle st + 1)%Z
  ∧ NewDisposableStore (reg_disposables (result r)) ∈ calls r
  ∧ calls d = [StoreDispose (reg_disposables (result r));
               Proxy_unregisterChatSessionItemProvider (reg_handle (result r))]
  ∧ provideChatSessionItems (reg_handle (result r)) token (final d)
    = (Done (Returned []), final d,
       [observe (LogError ("No provider registered for handle "
                           +:+ Js.numberToString (reg_handle (result r)))) (final d)]).
Proof.
  intros HI%reachable_Inv r d.
  assert (_chatSessionItemProviders st !! _nextChatSessionItemProviderHandle st = None)
    as Hfree.
  { destruct (_chatSessionItemProviders st !! _) as [entry|] eqn:Hlive; [|done].
    destruct (inv_item_live _ _ HI _ _ Hlive). lia. }
  assert (_chatSessionItemProviders (final d) = _chatSessionItemProviders st) as Hmap.
  { subst d r. unfold registerChatSessionItemProvider, dispose_itemProviderRegistration.
    unfold_M. simpl.
    destruct (onDidChangeChatSessionItems provider); simpl;
      by rewrite delete_insert_id. }
  subst d r. unfold provideChatSessionItems.
  unfold registerChatSessionItemProvider, dispose_itemProviderRegistration in *.
  unfold_M. simpl in *.
  destruct (onDidChangeChatSessionItems provider); simpl in *;
    rewrite Hmap, Hfree; split_and!; try done; try lia; set_solver.
Qed.

(** X7: the same for a content provider.  After the disposal the provider
    map is as before the registration, and [$provideChatSessionContent] for
    the spent handle throws without touching anything. *)
Theorem contentProvider_register_dispose st trace extension chatSessionType provider
    id token :
  reachable st trace →
  let r := registerChatSessionContentProvider extension chatSessionType provider st in
  let d := dispose_contentProviderRegistration (result r) (final r) in
  _chatSessionContentProviders (final d) = _chatSessionContentProviders st
  ∧ _nextChatSessionContentProviderHandle (final d)
    = (_nextChatSessionContentProviderHandle st + 1)%Z
  ∧ NewDisposableStore (reg_disposables (result r)) ∈ calls r
  ∧ calls d = [StoreDispose (reg_disposables (result r));
               Proxy_unregisterChatSessionContentProvider (reg_handle (result r))]
  ∧ provideChatSessionContent (reg_handle (result r)) id token (final d)
    = (Done (Threw ("No provider for handle "
                    +:+ Js.numberToString (reg_handle (result r)))), final d, []).
Proof.
  intros HI%reachable_Inv r d.
  assert (_chatSessionContentProviders st
            !! _nextChatSessionContentProviderHandle st = None) as Hfree.
  { destruct (_chatSessionContentProviders st !! _) as [entry|] eqn:Hlive; [|done].
    destruct (inv_content_live _ _ HI _ _ Hlive). lia. }
  assert (_chatSessionContentProviders (final d) = _chatSessionContentProviders st)
    as Hmap.
  { subst d r.
    unfold registerChatSessionContentProvider, dispose_contentProviderRegistration.
    unfold_M. simpl. by rewrite delete_insert_id. }
  subst d r. unfold provideChatSessionContent.
  unfold registerChatSessionContentProvider, dispose_contentProviderRegistration in *.
  unfold_M. simpl in *.
  rewrite Hmap, Hfree; split_and!; try done; try lia; set_solver.
Qed.

(** X8: disposing an item provider registration a second time changes no
    field, but makes the same two outward calls again: the store is disposed
    and the main thread is told to unregister the handle once more. *)
Theorem dispose_itemProviderRegistration_twice r st :
  let d1 := dispose_itemProviderRegistration r st in
  let d2 := dispose_itemProviderRegistration r (final d1) in
  final d2 = final d1
  ∧ calls d2 = calls d1
  ∧ calls d1 = [StoreDispose (reg_disposables r);
                Proxy_unregisterChatSessionItemProvider (reg_handle r)].
Proof.
  unfold dispose_itemProviderRegistration. unfold_M. simpl.
  split_and!; try done.
  unfold with_chatSessionItemProviders. simpl. by rewrite delete_delete_eq.
Qed.

(** ** The life of a session *)


(** X10: a second [$provideChatSessionContent] for the same handle and id
    replaces the stored entry by one with a store and a token source of its
    own.  [$disposeChatSessionContent] then releases the second entry's
    resources only and empties the key: the store and the token source of the
    first entry are neither disposed nor cancelled, and no entry is left
    through which they could be. *)
Theorem session_replaced_not_released k chatSession1 chatSession2 st :
  let key := sessionKey (cp_handle k) (cp_id k) in
  let r1 := provideChatSessionContent_resume k (Fulfilled chatSession1) st in
  let r2 := provideChatSessionContent_resume k (Fulfilled chatSession2) (final r1) in
  let d := disposeChatSessionContent (cp_handle k) (cp_id k) (final r2) in
  ∃ entry1 entry2,
    _extHostChatSessions (final r1) !! key = Some entry1
    ∧ _extHostChatSessions (final r2) !! key = Some entry2
    ∧ session (sessionObj entry2) = chatSession2
    ∧ sessionDisposables (sessionObj entry1) ≠ sessionDisposables (sessionObj entry2)
    ∧ disposeCts entry1 ≠ disposeCts entry2
    ∧ calls d = [CtsCancel (disposeCts entry2);
                 StoreDispose (sessionDisposables (sessionObj entry2))]
    ∧ (CtsCancel (disposeCts entry1) ∉ calls d)
    ∧ (StoreDispose (sessionDisposables (sessionObj entry1)) ∉ calls d)
    ∧ _extHostChatSessions (final d) !! key = None.
Proof.
  intros key r1 r2 d.
  destruct (provideChatSessionContent_resume_fulfilled k chatSession1 st)
    as (Hmap1 & Hheap1 & _).
  destruct (provideChatSessionContent_resume_fulfilled k chatSession2 (final r1))
    as (Hmap2 & _).
  fold r1 in Hmap1, Hheap1, Hmap2. fold r2 in Hmap2. fold key in Hmap1, Hmap2.
  exists (storedEntry k chatSession1 (heapNext st)),
         (storedEntry k chatSession2 (heapNext (final r1))).
  assert (_extHostChatSessions (final r2) !! key
          = Some (storedEntry k chatSession2 (heapNext (final r1)))) as Hentry2
    by (rewrite Hmap2; apply lookup_insert_eq).
  assert (calls d = [CtsCancel (S (S (heapNext (final r1))));
                     StoreDispose (heapNext (final r1))]) as Hcalls.
  { subst d. unfold disposeChatSessionContent. unfold_M. simpl.
    fold key. by rewrite Hentry2. }
  split_and!; simpl.
  - rewrite Hmap1. apply lookup_insert_eq.
  - done.
  - done.
  - lia.
  - lia.
  - done.
  - rewrite Hcalls. intros Hin.
    apply elem_of_cons in Hin as [[= ?]|Hin]; [lia|].
    apply elem_of_cons in Hin as [[=]|Hin]. by apply elem_of_nil in Hin.
  - rewrite Hcalls. intros Hin.
    apply elem_of_cons in Hin as [[=]|Hin].
    apply elem_of_cons in Hin as [[= ?]|Hin]; [lia|]. by apply elem_of_nil in Hin.
  - subst d. unfold disposeChatSessionContent. unfold_M. simpl.
    fold key. rewrite Hentry2. simpl. apply lookup_delete_eq.
Qed.

(** X11: the continuation of [$provideChatSessionContent] does not look at
    the provider map again.  When the provider is unregistered while its
    [provideChatSessionContent] is awaited, the session it then returns is
    stored all the same, under the handle that is no longer registered and
    with the extension of the registration that is gone. *)
Theorem session_stored_after_unregistration st handle id token provider disposables
    chatSession :
  _chatSessionContentProviders st !! handle = Some provider →
  let a := provideChatSessionContent handle id token st in
  let u := dispose_contentProviderRegistration
             {| reg_handle := handle; reg_disposables := disposables |} (final a) in
  ∃ k entry,
    result a = Await k
    ∧ _chatSessionContentProviders (final u) !! handle = None
    ∧ _extHostChatSessions
        (final (provideChatSessionContent_resume k (Fulfilled chatSession) (final u)))
        !! sessionKey handle id = Some entry
    ∧ session (sessionObj entry) = chatSession
    ∧ extension (sessionObj entry) = cpe_extension provider.
Proof.
  intros Hlive a u.
  assert (a = (Await {| cp_handle := handle; cp_id := id; cp_provider := provider |},
               st, [observe (Call_provideChatSessionContent (cpe_provider provider)
                               id token) st])) as Ha.
  { subst a. unfold provideChatSessionContent. unfold_M. by rewrite Hlive. }
  set (k := {| cp_handle := handle; cp_id := id; cp_provider := provider |}) in *.
  destruct (provideChatSessionContent_resume_fulfilled k chatSession (final u))
    as (Hmap & _).
  exists k, (storedEntry k chatSession (heapNext (final u))). split_and!.
  - by rewrite Ha.
  - subst u. unfold dispose_contentProviderRegistration. unfold_M. simpl.
    apply lookup_delete_eq.
  - rewrite Hmap. apply lookup_insert_eq.
  - done.
  - done.
Qed.

(** X12: every request gets a stream of its own.  In every state an instance
    can reach, the stream [getActiveRequestStream] makes is none of the
    objects created so far, in particular no stored session's active
    response stream, and it is built for the given request over the session's
    own extension, progress proxy and store. *)
Theorem getActiveRequestStream_fresh st trace this request :
  reachable st trace →
  let r := getActiveRequestStream this request st in
  calls r = [NewChatAgentResponseStream (result r) (extension this) request (proxy this)
               (sessionDisposables this)]
  ∧ (∀ e, e ∈ event <$> trace → allocated e ≠ Some (result r))
  ∧ (∀ key entry, _extHostChatSessions st !! key = Some entry →
       activeResponseStream (sessionObj entry) ≠ result r).
Proof.
  intros HI%reachable_Inv r. subst r. unfold getActiveRequestStream, new.
  unfold_M. simpl. split_and!.
  - done.
  - intros e He Ho. pose proof (inv_allocated _ _ HI _ _ He Ho). lia.
  - intros key entry Hentry. unfold activeResponseStream.
    destruct (inv_entry _ _ HI _ _ Hentry) as (? & ? & ?). lia.
Qed.

(** X13: the one stream a resumed [$provideChatSessionContent] constructs is
    the stored entry's active response stream, and the request it is
    constructed for has the session id as its agent, [id + '.' + n] as its
    session id, n being the id of the returned DTO, and ['ongoing'] as its
    request id, which is the request id the [finally] callback reports
    complete for the same handle and session. *)
Theorem session_stream_request k chatSession st :
  let r := provideChatSessionContent_resume k (Fulfilled chatSession) st in
  ∃ dto request entry,
    result r = Returned dto
    ∧ _extHostChatSessions (final r) !! sessionKey (cp_handle k) (cp_id k) = Some entry
    ∧ omap streamRequest (calls r) = [request]
    ∧ NewChatAgentResponseStream (activeResponseStream (sessionObj entry))
        (cpe_extension (cp_provider k)) request (cp_handle k, cp_id k)
        (sessionDisposables (sessionObj entry)) ∈ calls r
    ∧ req_agentId request = cp_id k
    ∧ req_sessionId request = (cp_id k +:+ "." +:+ csd_id dto)%string
    ∧ req_requestId request = "ongoing"%string
    ∧ req_message request = ""%string
    ∧ req_variables request = []
    ∧ req_location request = Panel
    ∧ req_userSelectedModelId request = None
    ∧ (∀ st', calls (activeResponseCallback_finally (cp_handle k) (cp_id k) st')
              = [Proxy_handleProgressComplete (cp_handle k) (cp_id k) "ongoing"])
    ∧ ∀ st', calls (activeResponseCallback_finally (cp_handle k) (cp_id k) st')
             = [Proxy_handleProgressComplete (cp_handle k) (cp_id k)
                  (req_requestId request)].
Proof.
  intros r. subst r.
  unfold provideChatSessionContent_resume, activeResponseCallback_finally,
    activeResponseStream, sessionKey.
  unfold_M. simpl.
  destruct (activeResponseCallback chatSession); simpl;
    eexists _, _, _; (split_and!; [done|apply lookup_insert_eq|done|simpl; set_solver|
                                   done..]).
Qed.

(** ** Requests *)

(** X14: a request for a stored session that has a request handler ends
    within three [await]s.  The model is the one the user selected when a
    model is found under the selected id, the default model otherwise; the
    default model is asked for only when it is needed, and a rejected lookup
    is passed on without falling back.  With a model, one new stream is made
    over the session's own store and the handler is called once, with the
    request, the model, the caller's history and the caller's token, and the
    result is [{}] or the handler's rejection; without one the method throws
    ['Language model unavailable'], no stream is made and the handler is not
    called.  No field of the instance changes. *)
Theorem invokeChatSessionRequestHandler_run st handle id request history token replies
    entry handler :
  _extHostChatSessions st !! sessionKey handle id = Some entry →
  requestHandler (session (sessionObj entry)) = Some handler →
  let r := invokeChatSessionRequestHandler_settled 3 replies handle id request history
             token st in
  let this := sessionObj entry in
  match modelForRequest request replies with
  | Fulfilled (Some model) =>
      result r = Done match handled replies with
                      | Fulfilled _ => Returned EmptyResult
                      | Rejected err => Threw err
                      end
      ∧ calls r = modelLookups (extension this) request replies
                  ++ [NewChatAgentResponseStream (heapNext st) (extension this) request
                        (proxy this) (sessionDisposables this);
                      Call_requestHandler handler request model (extension this) history
                        (heapNext st) token]
      ∧ final r = with_heapNext S st
  | Fulfilled None =>
      result r = Done (Threw "Language model unavailable")
      ∧ calls r = modelLookups (extension this) request replies
      ∧ final r = st
  | Rejected err =>
      result r = Done (Threw err)
      ∧ calls r = modelLookups (extension this) request replies
      ∧ final r = st
  end.
Proof.
  intros Hentry Hhandler r this. subst r this.
  unfold invokeChatSessionRequestHandler_settled, invokeChatSessionRequestHandler,
    modelForRequest, modelLookups, Js.truthy_opt.
  unfold_M. rewrite Hentry. simpl. rewrite Hhandler. simpl.
  unfold getModelForRequest. unfold_M. simpl.
  destruct replies as [byId dflt hnd]. simpl.
  destruct (req_userSelectedModelId request) as [modelId|]; simpl;
    [destruct (Js.truthy modelId); simpl;
     [destruct byId as [[model|]|err]; simpl|]|];
    try (destruct dflt as [[model'|]|err']; simpl);
    try (destruct hnd as [[]|err'']; simpl);
    split_and!; try done; by destruct st.
Qed.

(** X15: without a stored session under the key, or with a session that has
    no request handler, the request is answered with [{}] at once: no model
    is looked up, no stream is made, nothing is called and no field
    changes. *)
Theorem invokeChatSessionRequestHandler_nothing_to_do st handle id request history token :
  match _extHostChatSessions st !! sessionKey handle id with
  | Some entry => requestHandler (session (sessionObj entry)) = None
  | None => True
  end →
  invokeChatSessionRequestHandler handle id request history token st
  = (Done (Returned EmptyResult), st, []).
Proof.
  unfold invokeChatSessionRequestHandler. unfold_M.
  destruct (_extHostChatSessions st !! sessionKey handle id) as [entry|]; simpl;
    [|done].
  by intros ->.
Qed.

(** ** Resolving arguments *)

(** X16: what [$provideChatSessionItems] records, the argument processor
    gives back.  After the provider's items have been taken in, a chat
    session context carrying the id of a returned item with a truthy id
    resolves to the last returned item with that id, without a warning and
    without changing a field. *)
Theorem processArgument_resolves_recorded sessions st i item :
  sessions !! i = Some item →
  hasTruthyId item →
  (∀ j later, i < j → sessions !! j = Some later → item_id later ≠ item_id item) →
  let st1 := final (provideChatSessionItems_resume (Fulfilled (Some sessions)) st) in
  processArgument (ChatSessionContext (item_id item)) st1
  = (SessionItem item, st1, []).
Proof.
  intros Hi Htruthy Hlast st1.
  pose proof (provideChatSessionItems_loop_last sessions [] st i item Hi Htruthy Hlast)
    as Hrecorded.
  assert (_sessionMap st1 !! item_id item = Some item) as Hst1.
  { subst st1. unfold provideChatSessionItems_resume. unfold_M.
    unfold final in Hrecorded.
    by destruct (provideChatSessionItems_loop sessions [] st) as [[out st2] ev]. }
  unfold processArgument. unfold_M. by rewrite Hst1.
Qed.

(** X17: a chat session context whose id is not in the item map comes back as
    it is, with one warning logged; any other argument comes back as it is,
    silently.  Neither changes a field. *)
Theorem processArgument_passes_through arg st :
  match arg with
  | ChatSessionContext id => _sessionMap st !! id = None
  | OtherArgument _ => True
  end →
  processArgument arg st
  = (Untouched arg, st,
     match arg with
     | ChatSessionContext id =>
         [observe (LogWarn ("No chat session found for ID: " +:+ id)) st]
     | OtherArgument _ => []
     end).
Proof.
  destruct arg as [id|other]; simpl; [|done].
  intros Hnone. unfold_M. by rewrite Hnone.
Qed.

(** ** Change events *)

(** X18: a registration subscribes to the provider's change event exactly
    when the provider has one, once, and puts the subscription into the
    store it created, the store that disposing the registration disposes;
    the listener tells the main thread that the items of the registered chat
    session type changed.  A provider without the event is registered all
    the same, with no subscription. *)
Theorem registerChatSessionItemProvider_subscription extension chatSessionType provider st :
  let r := registerChatSessionItemProvider extension chatSessionType provider st in
  let store := reg_disposables (result r) in
  match onDidChangeChatSessionItems provider with
  | Some changed =>
      ∃ subscription,
        calls r = [NewDisposableStore store;
                   Proxy_registerChatSessionItemProvider (reg_handle (result r))
                     chatSessionType;
                   Subscribe_onDidChangeChatSessionItems changed chatSessionType
                     subscription;
                   StoreAdd store subscription]
        ∧ subscription ≠ store
  | None =>
      calls r = [NewDisposableStore store;
                 Proxy_registerChatSessionItemProvider (reg_handle (result r))
                   chatSessionType]
  end
  ∧ StoreDispose store
    ∈ calls (dispose_itemProviderRegistration (result r) (final r))
  ∧ ∀ st', calls (onDidChangeChatSessionItems_listener chatSessionType st')
           = [Proxy_onDidChangeChatSessionItems chatSessionType].
Proof.
  unfold registerChatSessionItemProvider, dispose_itemProviderRegistration,
    onDidChangeChatSessionItems_listener.
  unfold_M. simpl.
  destruct (onDidChangeChatSessionItems provider); simpl; split_and!;
    try done; try set_solver.
  eexists. split; [done|]. simpl. lia.
Qed.

(** ** Stored sessions *)




(** X20: a session is released once.  A second [$disposeChatSessionContent]
    for the same handle and id finds no entry: it logs a warning, cancels
    and disposes nothing, and changes no field. *)
Theorem disposeChatSessionContent_twice providerHandle sessionId entry st :
  _extHostChatSessions st !! sessionKey providerHandle sessionId = Some entry →
  let d1 := disposeChatSessionContent providerHandle sessionId st in
  let d2 := disposeChatSessionContent providerHandle sessionId (final d1) in
  calls d2 = [LogWarn ("No chat session found for ID: "
                       +:+ sessionKey providerHandle sessionId)]
  ∧ final d2 = final d1
  ∧ filter (λ e, releases e = true) (calls d1 ++ calls d2)
    = [CtsCancel (disposeCts entry);
       StoreDispose (sessionDisposables (sessionObj entry))].
Proof.
  intros Hentry. unfold disposeChatSessionContent. unfold_M. simpl.
  rewrite Hentry. simpl. rewrite lookup_delete_eq. done.
Qed.

End ExtHost.

(** * The scenario, run *)

(** The theorems above at concrete inputs: the initial state, and the state of
    the scenario [demo_ops]. *)

Lemma provideChatSessionItems_unregistered_demo :
  _chatSessionItemProviders string (initial string) !! 7%Z = None
  ∧ provideChatSessionItems string 7 (CallerToken 5) (initial string)
    = (Done (Returned []), initial string,
       [observe string (LogError "No provider registered for handle 7") (initial string)]).
Proof.
  split; [reflexivity|].
  apply (provideChatSessionItems_unregistered string 7 (CallerToken 5) (initial string)).
  reflexivity.
Defined.

Lemma provideChatSessionContent_unregistered_demo :
  _chatSessionContentProviders string (initial string) !! (-1)%Z = None
  ∧ provideChatSessionContent string string (-1) "s" (CallerToken 5) (initial string)
    = (Done (Threw "No provider for handle -1"), initial string, []).
Proof.
  split; [reflexivity|].
  apply (provideChatSessionContent_unregistered string string (-1) "s" (CallerToken 5)
           (initial string)).
  reflexivity.
Defined.

Lemma disposeChatSessionContent_unknown_demo :
  let st := (run string string demo_part_from demo_viewColumn_from
               (demo_ops string) (initial string)).1 in
  _extHostChatSessions string st !! sessionKey 0 "t" = None
  ∧ final string (disposeChatSessionContent string 0 "t" st) = st
  ∧ calls string (disposeChatSessionContent string 0 "t" st)
    = [LogWarn "No chat session found for ID: 0_t"].
Proof.
  intros st.
  assert (_extHostChatSessions string st !! sessionKey 0 "t" = None) as Hnone
    by (vm_compute; reflexivity).
  split; [exact Hnone|].
  destruct (disposeChatSessionContent_unknown string 0 "t" st Hnone) as (Hr & Hst & _).
  split; [exact Hst|]. rewrite Hr. reflexivity.
Defined.

Lemma disposeChatSessionContent_release_order_demo :
  let st := (run string string demo_part_from demo_viewColumn_from
               (demo_ops string) (initial string)).1 in
  let entry := storedEntry string demo_pending (demo_session string) 5 in
  _extHostChatSessions string st !! sessionKey 0 "s" = Some entry
  ∧ calls string (disposeChatSessionContent string 0 "s" st)
    = [CtsCancel 7; StoreDispose 5]
  ∧ _extHostChatSessions string (final string (disposeChatSessionContent string 0 "s" st))
      !! "0_s" = None.
Proof.
  intros st entry.
  assert (_extHostChatSessions string st !! sessionKey 0 "s" = Some entry) as Hentry
    by (vm_compute; reflexivity).
  split; [exact Hentry|].
  destruct (disposeChatSessionContent_release_order string 0 "s" entry st Hentry)
    as (Hcalls & _ & _ & Hgone).
  split; [exact Hcalls|exact Hgone].
Defined.

Lemma registrations_multiplexed_by_handle_demo :
  let r := run string string demo_part_from demo_viewColumn_from
             (demo_ops string) (initial string) in
  reachable string string demo_part_from demo_viewColumn_from r.1 r.2
  ∧ NoDup (registeredItemHandles (event string <$> r.2))
  ∧ _chatSessionItemProviders string r.1 !! 2%Z = None.
Proof.
  intros r.
  assert (reachable string string demo_part_from demo_viewColumn_from r.1 r.2) as Hreach
    by (exists (demo_ops string); vm_compute; reflexivity).
  split; [exact Hreach|].
  destruct (registrations_multiplexed_by_handle string string demo_part_from
              demo_viewColumn_from r.1 r.2 Hreach) as (Hitem & _ & Hnodup & _).
  split; [exact Hnodup|].
  destruct (Hitem demo_extension "demo"%string (demo_itemProvider 9)) as (_ & _ & Hfree & _).
  exact Hfree.
Defined.

Lemma session_resources_tracked_demo :
  let r := run string string demo_part_from demo_viewColumn_from
             (demo_ops string) (initial string) in
  reachable string string demo_part_from demo_viewColumn_from r.1 r.2
  ∧ ownResources string r.1.
Proof.
  intros r.
  assert (reachable string string demo_part_from demo_viewColumn_from r.1 r.2) as Hreach
    by (exists (demo_ops string); vm_compute; reflexivity).
  split; [exact Hreach|].
  exact (proj2 (session_resources_tracked string string demo_part_from
                  demo_viewColumn_from r.1 r.2 Hreach)).
Defined.

Lemma sessions_correlated_by_composite_key_demo :
  let st := (run string string demo_part_from demo_viewColumn_from
               (demo_ops string) (initial string)).1 in
  let entry := storedEntry string demo_pending (demo_session string) 5 in
  _extHostChatSessions string st !! "0_s" = Some entry
  ∧ calls string (disposeChatSessionContent string 0 "s" st)
    = [CtsCancel 7; StoreDispose 5]
  ∧ (∀ handle id, sessionKey handle id = "0_s" → handle = 0%Z ∧ id = "s")
  ∧ calls string
      (invokeChatSessionRequestHandler_settled string 3 demo_replies 0 "s" demo_request
         [40; 41] (CallerToken 6) st)
    = [Call_getLanguageModelByIdentifier demo_extension "gpt";
       Call_getDefaultLanguageModel demo_extension;
       NewChatAgentResponseStream 8 demo_extension demo_request (0%Z, "s") 5;
       Call_requestHandler 21 demo_request 30 demo_extension [40; 41] 8 (CallerToken 6)].
Proof.
  intros st entry.
  assert (_extHostChatSessions string st !! "0_s" = Some entry) as Hentry
    by (vm_compute; reflexivity).
  split; [exact Hentry|].
  destruct (sessions_correlated_by_composite_key string string demo_part_from 0 "s")
    as (_ & _ & Hdispose & _ & _ & Hinj & _ & Hrun).
  split; [exact (proj1 (Hdispose st entry Hentry))|].
  split; [exact Hinj|].
  exact (Hrun st entry 21 demo_request [40; 41] (CallerToken 6) demo_replies Hentry
           eq_refl).
Defined.

Lemma cancellation_token_forwarded_demo :
  let st := (run string string demo_part_from demo_viewColumn_from
               (demo_ops string) (initial string)).1 in
  calls string (provideChatSessionItems string 1 (CallerToken 5) st)
  = [Call_provideChatSessionItems (demo_itemProvider 2) (CallerToken 5)]
  ∧ calls string (provideChatSessionContent string string 0 "s" (CallerToken 6) st)
    = [Call_provideChatSessionContent demo_contentProvider "s" (CallerToken 6)].
Proof.
  intros st. split.
  - apply (proj1 (cancellation_token_forwarded string string st (CallerToken 5)) 1%Z
             {| ipe_provider := demo_itemProvider 2; ipe_extension := demo_extension;
                ipe_disposable := 2 |}).
    vm_compute; reflexivity.
  - apply (proj1 (proj2 (cancellation_token_forwarded string string st (CallerToken 6)))
             0%Z "s"%string
             {| cpe_provider := demo_contentProvider; cpe_extension := demo_extension;
                cpe_disposable := 4 |}).
    vm_compute; reflexivity.
Defined.

Lemma provideChatSessionItems_result_demo :
  let r := provideChatSessionItems_resume string
             (Fulfilled (Some [demo_first; demo_second])) (initial string) in
  _sessionMap string (final string r) !! "a" = Some demo_second
  ∧ _sessionMap string (final string r) !! "b" = None.
Proof.
  intros r.
  destruct (provideChatSessionItems_result string [demo_first; demo_second]
              (initial string)) as (_ & _ & _ & Hlast & Hother).
  split.
  - apply (Hlast 1 demo_second); [reflexivity|reflexivity|].
    intros [|[|[|j]]] later Hlt Hj; try lia; discriminate Hj.
  - apply (Hother "b"%string).
    intros item Hin _.
    apply elem_of_cons in Hin as [->|Hin]; [discriminate|].
    apply elem_of_cons in Hin as [->|Hin]; [discriminate|].
    by apply elem_of_nil in Hin.
Defined.

(** A resumed [$provideChatSessionContent] on a history with a request and a
    response whose second part converts to [undefined]. *)
Example provideChatSessionContent_dto_demo :
  result string
    (provideChatSessionContent_resume string string demo_part_from demo_pending
       (Fulfilled
          {| history := [ChatRequestTurn string "hello";
                         ChatResponseTurn2 string ["a"; ""; "b"]];
             activeResponseCallback := None;
             requestHandler := Some 21 |})
       (initial string))
  = Returned
      {| csd_id := "0";
         hasActiveResponseCallback := false;
         hasRequestHandler := true;
         csd_history := [RequestDto string "hello"; ResponseDto string ["a"; "b"]] |}.
Proof. reflexivity. Qed.

Lemma handles_announced_in_sequence_demo :
  let r := run string string demo_part_from demo_viewColumn_from
             (demo_ops string) (initial string) in
  reachable string string demo_part_from demo_viewColumn_from r.1 r.2
  ∧ registeredItemHandles (event string <$> r.2) = [0; 1]%Z
  ∧ registeredContentHandles (event string <$> r.2) = [0%Z].
Proof.
  intros r.
  assert (reachable string string demo_part_from demo_viewColumn_from r.1 r.2) as Hreach
    by (exists (demo_ops string); vm_compute; reflexivity).
  split; [exact Hreach|].
  destruct (handles_announced_in_sequence string string demo_part_from
              demo_viewColumn_from r.1 r.2 Hreach) as [Hitems Hcontents].
  split; [rewrite Hitems|rewrite Hcontents]; vm_compute; reflexivity.
Defined.

Lemma sessionMap_keyed_by_id_demo :
  let ops := demo_ops string
             ++ [Op_provideChatSessionItems_resume string
                   (Fulfilled (Some [demo_first; demo_second]))] in
  let r := run string string demo_part_from demo_viewColumn_from ops (initial string) in
  reachable string string demo_part_from demo_viewColumn_from r.1 r.2
  ∧ _sessionMap string r.1 !! "a" = Some demo_second
  ∧ keyedById string r.1.
Proof.
  intros ops r.
  assert (reachable string string demo_part_from demo_viewColumn_from r.1 r.2) as Hreach
    by (exists ops; vm_compute; reflexivity).
  split; [exact Hreach|]. split; [vm_compute; reflexivity|].
  exact (proj1 (sessionMap_keyed_by_id string string demo_part_from
                  demo_viewColumn_from r.1 r.2 Hreach)).
Defined.

Lemma sessionMap_never_forgets_demo :
  let st := final string
              (provideChatSessionItems_resume string
                 (Fulfilled (Some [demo_first; demo_second])) (initial string)) in
  is_Some (_sessionMap string st !! "a")
  ∧ is_Some (_sessionMap string
               (run string string demo_part_from demo_viewColumn_from
                  (demo_ops string) st).1 !! "a").
Proof.
  intros st.
  assert (is_Some (_sessionMap string st !! "a")) as Hrecorded
    by (exists demo_second; vm_compute; reflexivity).
  split; [exact Hrecorded|].
  exact (sessionMap_never_forgets string string demo_part_from demo_viewColumn_from
           (demo_ops string) st "a" Hrecorded).
Defined.

Lemma itemProvider_register_dispose_demo :
  let r := run string string demo_part_from demo_viewColumn_from
             (demo_ops string) (initial string) in
  let registered := registerChatSessionItemProvider string demo_extension "demo"
                      (demo_itemProvider 9) r.1 in
  reachable string string demo_part_from demo_viewColumn_from r.1 r.2
  ∧ _chatSessionItemProviders string
      (final string
         (dispose_itemProviderRegistration string (result string registered)
            (final string registered)))
    = _chatSessionItemProviders string r.1.
Proof.
  intros r registered.
  assert (reachable string string demo_part_from demo_viewColumn_from r.1 r.2) as Hreach
    by (exists (demo_ops string); vm_compute; reflexivity).
  split; [exact Hreach|].
  exact (proj1 (itemProvider_register_dispose string string demo_part_from
                  demo_viewColumn_from r.1 r.2 demo_extension "demo"
                  (demo_itemProvider 9) (CallerToken 5) Hreach)).
Defined.

Lemma contentProvider_register_dispose_demo :
  let r := run string string demo_part_from demo_viewColumn_from
             (demo_ops string) (initial string) in
  let registered := registerChatSessionContentProvider string demo_extension "demo"
                      demo_contentProvider r.1 in
  reachable string string demo_part_from demo_viewColumn_from r.1 r.2
  ∧ _chatSessionContentProviders string
      (final string
         (dispose_contentProviderRegistration string (result string registered)
            (final string registered)))
    = _chatSessionContentProviders string r.1.
Proof.
  intros r registered.
  assert (reachable string string demo_part_from demo_viewColumn_from r.1 r.2) as Hreach
    by (exists (demo_ops string); vm_compute; reflexivity).
  split; [exact Hreach|].
  exact (proj1 (contentProvider_register_dispose string string demo_part_from
                  demo_viewColumn_from r.1 r.2 demo_extension "demo"
                  demo_contentProvider "s" (CallerToken 5) Hreach)).
Defined.

Lemma session_stored_after_unregistration_demo :
  let st := (run string string demo_part_from demo_viewColumn_from
               (demo_ops string) (initial string)).1 in
  _chatSessionContentProviders string st !! 0%Z = Some (cp_provider demo_pending)
  ∧ ∃ k entry,
      result string (provideChatSessionContent string string 0 "t" (CallerToken 5) st)
      = Await k
      ∧ _extHostChatSessions string
          (final string
             (provideChatSessionContent_resume string string demo_part_from k
                (Fulfilled (demo_session string))
                (final string
                   (dispose_contentProviderRegistration string
                      {| reg_handle := 0; reg_disposables := 4 |}
                      (final string
                         (provideChatSessionContent string string 0 "t"
                            (CallerToken 5) st))))))
          !! sessionKey 0 "t" = Some entry.
Proof.
  intros st.
  assert (_chatSessionContentProviders string st !! 0%Z
          = Some (cp_provider demo_pending)) as Hlive by (vm_compute; reflexivity).
  split; [exact Hlive|].
  destruct (session_stored_after_unregistration string string demo_part_from st 0 "t"
              (CallerToken 5) (cp_provider demo_pending) 4 (demo_session string) Hlive)
    as (k & entry & Hk & _ & Hstored & _).
  exists k, entry. split; [exact Hk|exact Hstored].
Defined.

Lemma getActiveRequestStream_fresh_demo :
  let r := run string string demo_part_from demo_viewColumn_from
             (demo_ops string) (initial string) in
  let this := sessionObj string
                (storedEntry string demo_pending (demo_session string) 5) in
  reachable string string demo_part_from demo_viewColumn_from r.1 r.2
  ∧ calls string (getActiveRequestStream string this demo_request r.1)
    = [NewChatAgentResponseStream 8 demo_extension demo_request (0%Z, "s") 5].
Proof.
  intros r this.
  assert (reachable string string demo_part_from demo_viewColumn_from r.1 r.2) as Hreach
    by (exists (demo_ops string); vm_compute; reflexivity).
  split; [exact Hreach|].
  exact (proj1 (getActiveRequestStream_fresh string string demo_part_from
                  demo_viewColumn_from r.1 r.2 this demo_request Hreach)).
Defined.

Lemma invokeChatSessionRequestHandler_run_demo :
  let st := (run string string demo_part_from demo_viewColumn_from
               (demo_ops string) (initial string)).1 in
  let entry := storedEntry string demo_pending (demo_session string) 5 in
  _extHostChatSessions string st !! sessionKey 0 "s" = Some entry
  ∧ requestHandler string (session string (sessionObj string entry)) = Some 21
  ∧ calls string
      (invokeChatSessionRequestHandler_settled string 3 demo_replies 0 "s" demo_request
         [40; 41] (CallerToken 6) st)
    = [Call_getLanguageModelByIdentifier demo_extension "gpt";
       Call_getDefaultLanguageModel demo_extension;
       NewChatAgentResponseStream 8 demo_extension demo_request (0%Z, "s") 5;
       Call_requestHandler 21 demo_request 30 demo_extension [40; 41] 8 (CallerToken 6)].
Proof.
  intros st entry.
  assert (_extHostChatSessions string st !! sessionKey 0 "s" = Some entry) as Hentry
    by (vm_compute; reflexivity).
  split; [exact Hentry|]. split; [reflexivity|].
  exact (proj1 (proj2 (invokeChatSessionRequestHandler_run string st 0 "s" demo_request
                         [40; 41] (CallerToken 6) demo_replies entry 21 Hentry
                         eq_refl))).
Defined.

Lemma invokeChatSessionRequestHandler_nothing_to_do_demo :
  let st := (run string string demo_part_from demo_viewColumn_from
               (demo_ops string) (initial string)).1 in
  _extHostChatSessions string st !! sessionKey 1 "s" = None
  ∧ invokeChatSessionRequestHandler string 1 "s" demo_request [] (CallerToken 6) st
    = (Done (Returned EmptyResult), st, []).
Proof.
  intros st.
  assert (_extHostChatSessions string st !! sessionKey 1 "s" = None) as Hnone
    by (vm_compute; reflexivity).
  split; [exact Hnone|].
  apply (invokeChatSessionRequestHandler_nothing_to_do string st 1 "s" demo_request []
           (CallerToken 6)).
  rewrite Hnone. exact I.
Defined.

Lemma processArgument_resolves_recorded_demo :
  let st1 := final string
               (provideChatSessionItems_resume string
                  (Fulfilled (Some [demo_first; demo_second])) (initial string)) in
  [demo_first; demo_second] !! 1 = Some demo_second
  ∧ hasTruthyId demo_second
  ∧ processArgument string (ChatSessionContext "a") st1
    = (SessionItem demo_second, st1, []).
Proof.
  intros st1. split; [reflexivity|]. split; [reflexivity|].
  apply (processArgument_resolves_recorded string [demo_first; demo_second]
           (initial string) 1 demo_second); [reflexivity|reflexivity|].
  intros [|[|[|j]]] later Hlt Hj; try lia; discriminate Hj.
Defined.

Lemma processArgument_passes_through_demo :
  _sessionMap string (initial string) !! "zz" = None
  ∧ processArgument string (ChatSessionContext "zz") (initial string)
    = (Untouched (ChatSessionContext "zz"), initial string,
       [observe string (LogWarn "No chat session found for ID: zz") (initial string)]).
Proof.
  split; [reflexivity|].
  apply (processArgument_passes_through string (ChatSessionContext "zz")
           (initial string)).
  reflexivity.
Defined.


Lemma disposeChatSessionContent_twice_demo :
  let st := (run string string demo_part_from demo_viewColumn_from
               (demo_ops string) (initial string)).1 in
  let entry := storedEntry string demo_pending (demo_session string) 5 in
  _extHostChatSessions string st !! sessionKey 0 "s" = Some entry
  ∧ calls string
      (disposeChatSessionContent string 0 "s"
         (final string (disposeChatSessionContent string 0 "s" st)))
    = [LogWarn "No chat session found for ID: 0_s"].
Proof.
  intros st entry.
  assert (_extHostChatSessions string st !! sessionKey 0 "s" = Some entry) as Hentry
    by (vm_compute; reflexivity).
  split; [exact Hentry|].
  exact (proj1 (disposeChatSessionContent_twice string 0 "s" entry st Hentry)).
Defined.

(** C4 as the spec states it fails on a provider that returns two items with
    one id: both items have a truthy id, the second [set] replaces the first,
    and the session map does not hold the first item under its id. *)
Lemma provideChatSessionItems_duplicate_id :
  ¬ (∀ item,
       item ∈ [demo_first; demo_second] →
       hasTruthyId item →
       _sessionMap string
         (final string
            (provideChatSessionItems_resume string
               (Fulfilled (Some [demo_first; demo_second])) (initial string)))
         !! item_id item = Some item).
Proof.
  intros Hclaim.
  specialize (Hclaim demo_first ltac:(by left) eq_refl).
  vm_compute in Hclaim. discriminate Hclaim.
Qed.
